(** * stories-facets: the histogram range filter and the histogram bar

    A shallow embedding of [FacetHistogramFilter] (the range-selection tool
    of a histogram facet) and of [FacetHistogramBar] (one rendered bin),
    with the properties of the drag arithmetic, the pagination, the commit
    path and the bar's layered geometry.

    Conventions of the embedding.
    - JavaScript numbers that hold pixel coordinates, bar indices and
      heights are integers here ([Z]); all the arithmetic the two classes
      do on them is addition, subtraction, comparison, [Math.max] and
      [Math.min], which is exact on integers.
    - Range objects ([{from, to}]) live in a store and are named by
      references, since the filter keeps, copies and mutates them.
    - Calls into the DOM, into the histogram and into the registered
      callback are recorded in an effect log, newest entry first.
    - A [TypeError] raised by reading a property of [undefined] or [null]
      ends the running handler; the state written so far stays. *)

From Stdlib Require Import ZArith Lia Bool.
From stdpp Require Import base tactics option list strings pretty.

Local Open Scope Z_scope.

(** ** Ranges *)

(** A range object [{from: .., to: ..}], in pixels or in bar indices. *)
Record Range : Type := mkRange { from : Z; to : Z }.

#[global] Instance Range_inhabited : Inhabited Range := populate (mkRange 0 0).

#[global] Instance Range_eq_dec : EqDecision Range.
Proof. solve_decision. Defined.

(** [range.from = v] and [range.to = v]. *)
Definition set_from (v : Z) (r : Range) : Range := {| from := v; to := to r |}.
Definition set_to (v : Z) (r : Range) : Range := {| from := from r; to := v |}.

(** ** The drag arithmetic: [calculateFrom] and [calculateTo]

    Both functions mutate the range object they are given and nothing else;
    they are written here as the transformation of that one object. *)

Definition calculateFrom (range : Range) (offset barWidth totalWidth : Z) : Range :=
  let range := set_from (Z.max 0 (from range + offset)) range in
  if from range >? to range - barWidth then
    if from range + barWidth <? totalWidth then
      set_to (from range + barWidth) range
    else
      set_to totalWidth (set_from (totalWidth - barWidth) range)
  else range.

Definition calculateTo (range : Range) (offset barWidth totalWidth : Z) : Range :=
  let range := set_to (Z.min totalWidth (to range + offset)) range in
  if to range <? from range + barWidth then
    if to range - barWidth >? 0 then
      set_from (to range - barWidth) range
    else
      set_to barWidth (set_from 0 range)
  else range.

(** The drag policy in the words of the specification. Left handle: [from]
    moves by the delta, clamped at [0]; when that leaves less than one bar,
    [to] is pushed to [from + barWidth], unless that exceeds [totalWidth],
    where the range snaps to the rightmost one-bar window. *)
Definition drag_left_policy (r : Range) (delta barWidth totalWidth : Z) : Range :=
  let f := Z.max 0 (from r + delta) in
  if to r - f <? barWidth then
    if totalWidth <? f + barWidth
    then mkRange (totalWidth - barWidth) totalWidth
    else mkRange f (f + barWidth)
  else mkRange f (to r).

(** Right handle, the mirror: [to] moves by the delta, clamped at
    [totalWidth]; when that leaves less than one bar, [from] is pulled to
    [to - barWidth], unless that is negative, where the range snaps to
    [[0, barWidth]]. *)
Definition drag_right_policy (r : Range) (delta barWidth totalWidth : Z) : Range :=
  let t := Z.min totalWidth (to r + delta) in
  if t - from r <? barWidth then
    if t - barWidth <? 0
    then mkRange 0 barWidth
    else mkRange (t - barWidth) t
  else mkRange (from r) t.

(** A pixel range inside the histogram: [0 <= from <= to <= totalWidth]. *)
Definition pixel_range_ok (totalWidth : Z) (r : Range) : Prop :=
  0 <= from r /\ from r <= to r /\ to r <= totalWidth.

(** ** The histogram's conversions *)

Module Histogram.

(** [Math.round (x / w)] for integers [x] and [w > 0]: the nearest
    integer, a half rounding up. *)
Definition round_div (x w : Z) : Z := (2 * x + w) / (2 * w).

Definition clamp_index (barCount i : Z) : Z := Z.min (barCount - 1) (Z.max 0 i).

(** Modelled from the spec: [pixelRangeToBarRange] belongs to the histogram
    class, whose source is not part of the two files at hand. The
    specification describes it as rounding the pixel bounds to the nearest
    matching bar indices, defined on all of [[0, totalWidth]] and returning
    a bar range, whose indices lie in [[0, lastBarIndex]]: [from] goes to
    the bar whose left edge is nearest, [to] to the bar whose right edge is
    nearest. This is the [Matching] reading of [barIndexes] below, with the
    indices clamped; the filter itself is written over whatever conversion
    its histogram brings. *)
Definition pixelRangeToBarRange (barWidth barCount : Z) (pixelRange : Range) : Range :=
  {| from := clamp_index barCount (round_div (from pixelRange) barWidth);
     to := clamp_index barCount (round_div (to pixelRange - barWidth) barWidth) |}.

(** Modelled from the spec: [barRangeToPixelRange], of the same class, the
    conversion back for display: bar [i] covers the pixels from
    [i * barWidth] to [(i + 1) * barWidth]. *)
Definition barRangeToPixelRange (barWidth : Z) (barRange : Range) : Range :=
  {| from := from barRange * barWidth;
     to := to barRange * barWidth + barWidth |}.



End Histogram.

(** ** JavaScript values held in metadata entries and DOM attributes *)

Inductive value : Type :=
| VUndefined
| VNull
| VBool (b : bool)
| VNum (n : Z)
| VStr (s : string).

#[global] Instance value_eq_dec : EqDecision value.
Proof. solve_decision. Defined.

(** The operand of [||] and [if]: falsy values are [undefined], [null],
    [false], [0] and the empty string. *)
Definition truthy (v : value) : bool :=
  match v with
  | VUndefined | VNull => false
  | VBool b => b
  | VNum n => negb (n =? 0)
  | VStr s => negb (String.eqb s "")
  end.

(** [a || b] *)
Definition js_or (a b : value) : value := if truthy a then a else b.

(** The conversion to a string that [+] applies next to a string operand. *)
Definition to_string (v : value) : string :=
  match v with
  | VUndefined => "undefined"
  | VNull => "null"
  | VBool true => "true"
  | VBool false => "false"
  | VNum n => pretty n
  | VStr s => s
  end.

(** [v !== undefined] *)
Definition is_defined (v : value) : bool :=
  match v with VUndefined => false | _ => true end.

(** [l[i]] on an array: [undefined] (here [None]) outside of it. *)
Definition js_index {A : Type} (l : list A) (i : Z) : option A :=
  if i <? 0 then None else l !! Z.to_nat i.

(** The outcome of running a piece of code: a value, or a [TypeError] from
    reading a property of [undefined] or [null]. *)
Inductive result (A : Type) : Type :=
| Ok (a : A)
| TypeError.
Arguments Ok {A} a.
Arguments TypeError {A}.

(** ** One entry of a bar's metadata list *)

Module Entry.
(** [{label?, toLabel?, binStart?, binEnd?, count, metadata}]; a field
    that is absent reads as [undefined]. *)
Record t : Type := mk {
  label : value;
  toLabel : value;
  binStart : value;
  binEnd : value;
  count : value;
  metadata : value
}.
End Entry.

(** ** The derived [info] object of a bar *)

Module Info.
(** [binStart] and [binEnd] are properties the getter adds only in some
    cases: [None] stands for a property that is absent. *)
Record t : Type := mk {
  label : list value;
  toLabel : list value;
  count : list value;
  metadata : list value;
  binStart : option (list value);
  binEnd : option (list value)
}.

Definition set_binStart (v : list value) (i : t) : t :=
  mk (label i) (toLabel i) (count i) (metadata i) (Some v) (binEnd i).
Definition set_binEnd (v : list value) (i : t) : t :=
  mk (label i) (toLabel i) (count i) (metadata i) (binStart i) (Some v).
End Info.

(** ** The histogram bar: [FacetHistogramBar] *)

Module Bar.

(** The attributes and styles the class sets on one SVG [rect]. *)
Record Rect : Type := mkRect {
  attr_class : string;
  attr_x : value;
  attr_y : value;
  attr_width : value;
  attr_height : value;
  css_height : value
}.

Definition BAR_CLASSES : string := "facet-histogram-bar facet-histogram-bar-transform".
Definition SHADOW_BAR_CLASS : string := "facet-histogram-shadow-bar".
Definition HIGHLIGHTED_CLASS : string := "facet-histogram-bar-highlighted".

Definition new_rect (class : string) : Rect :=
  mkRect class VUndefined VUndefined VUndefined VUndefined VUndefined.

Definition with_class v (r : Rect) : Rect :=
  mkRect v (attr_x r) (attr_y r) (attr_width r) (attr_height r) (css_height r).
Definition with_x v (r : Rect) : Rect :=
  mkRect (attr_class r) v (attr_y r) (attr_width r) (attr_height r) (css_height r).
Definition with_y v (r : Rect) : Rect :=
  mkRect (attr_class r) (attr_x r) v (attr_width r) (attr_height r) (css_height r).
Definition with_width v (r : Rect) : Rect :=
  mkRect (attr_class r) (attr_x r) (attr_y r) v (attr_height r) (css_height r).
(** [.attr('height', v)] followed by [.css('height', v)] *)
Definition with_height v (r : Rect) : Rect :=
  mkRect (attr_class r) (attr_x r) (attr_y r) (attr_width r) v v.

(** The fields of a bar. The three event-handler slots and the group
    element carry no geometry and are left out. [_metadata] is [null]
    ([None]) until a list is assigned; [_selectedHeight] is a number or
    [null]. *)
Record t : Type := mk {
  _metadata : option (list Entry.t);
  _highlighted : bool;
  _shadowElement : Rect;
  _backElement : Rect;
  _element : Rect;
  _selectedHeight : option Z;
  _x : value;
  _y : value;
  _width : value;
  _height : value
}.

(** *** Property setters and getters *)

Definition set_x (value : Z) (b : t) : t :=
  mk (_metadata b) (_highlighted b)
     (with_x (VNum value) (_shadowElement b)) (with_x (VNum value) (_backElement b))
     (with_x (VNum value) (_element b))
     (_selectedHeight b) (VNum value) (_y b) (_width b) (_height b).

Definition set_y (value : Z) (b : t) : t :=
  mk (_metadata b) (_highlighted b)
     (with_y (VNum value) (_shadowElement b)) (with_y (VNum value) (_backElement b))
     (with_y (VNum value) (_element b))
     (_selectedHeight b) (_x b) (VNum value) (_width b) (_height b).

Definition set_width (value : Z) (b : t) : t :=
  mk (_metadata b) (_highlighted b)
     (with_width (VNum value) (_shadowElement b)) (with_width (VNum value) (_backElement b))
     (with_width (VNum value) (_element b))
     (_selectedHeight b) (_x b) (_y b) (VNum value) (_height b).

Definition set_height (value : Z) (b : t) : t :=
  let element :=
    match _selectedHeight b with
    | None => with_height (VNum value) (_element b)
    | Some _ => _element b
    end in
  mk (_metadata b) (_highlighted b)
     (_shadowElement b) (with_height (VNum value) (_backElement b)) element
     (_selectedHeight b) (_x b) (_y b) (_width b) (VNum value).

Definition set_selectedHeight (value : option Z) (b : t) : t :=
  let element :=
    match value with
    | Some v => with_height (VNum v) (_element b)
    | None => with_height (_height b) (_element b)
    end in
  mk (_metadata b) (_highlighted b)
     (_shadowElement b) (_backElement b) element
     value (_x b) (_y b) (_width b) (_height b).

Definition metadata (b : t) : option (list Entry.t) := _metadata b.

Definition set_metadata (value : option (list Entry.t)) (b : t) : t :=
  mk value (_highlighted b) (_shadowElement b) (_backElement b) (_element b)
     (_selectedHeight b) (_x b) (_y b) (_width b) (_height b).

Definition set_highlighted (value : bool) (b : t) : t :=
  let element :=
    if negb (Bool.eqb value (_highlighted b)) then
      with_class (BAR_CLASSES +:+ (if value then " " +:+ HIGHLIGHTED_CLASS else ""))
                 (_element b)
    else _element b in
  mk (_metadata b) value (_shadowElement b) (_backElement b) element
     (_selectedHeight b) (_x b) (_y b) (_width b) (_height b).

(** The constructor: three rects, no selection, then the geometry through
    the setters, [height] first as [0] and then as given. *)
Definition new (x width height : Z) : t :=
  let shadow := with_height (VStr "100%") (new_rect (BAR_CLASSES +:+ " " +:+ SHADOW_BAR_CLASS)) in
  let b := mk None false shadow (new_rect BAR_CLASSES) (new_rect BAR_CLASSES)
              None VUndefined VUndefined VUndefined VUndefined in
  set_height height (set_height 0 (set_width width (set_y 0 (set_x x b)))).

(** The [info] getter. It builds a new object on each call from
    [this._metadata]; [null.map] and [undefined.binStart] (an empty list)
    raise. *)
Definition info (b : t) : result Info.t :=
  match _metadata b with
  | None => TypeError
  | Some md =>
    let info :=
      Info.mk (map (fun info => js_or (Entry.label info) (Entry.binStart info)) md)
              (map (fun info => js_or (Entry.toLabel info) (Entry.binEnd info)) md)
              (map Entry.count md)
              (map Entry.metadata md)
              None None in
    match js_index md 0 with
    | None => TypeError
    | Some first =>
      let info :=
        if is_defined (Entry.binStart first)
        then Info.set_binStart (map Entry.binStart md) info else info in
      let info :=
        if is_defined (Entry.binEnd first)
        then Info.set_binEnd (map Entry.binEnd md) info else info in
      Ok info
    end
  end.

(** *** Sequences of property writes *)

Inductive op : Type :=
| SetX (v : Z)
| SetY (v : Z)
| SetWidth (v : Z)
| SetHeight (v : Z)
| SetSelectedHeight (v : option Z)
| SetMetadata (v : option (list Entry.t))
| SetHighlighted (v : bool).

Definition apply (o : op) (b : t) : t :=
  match o with
  | SetX v => set_x v b
  | SetY v => set_y v b
  | SetWidth v => set_width v b
  | SetHeight v => set_height v b
  | SetSelectedHeight v => set_selectedHeight v b
  | SetMetadata v => set_metadata v b
  | SetHighlighted v => set_highlighted v b
  end.

Definition run (ops : list op) (b : t) : t :=
  fold_left (fun b o => apply o b) ops b.

(** The height the foreground layer is to show: the selected height when
    there is one, the bar's own height otherwise. *)
Definition foreground_target (b : t) : value :=
  match _selectedHeight b with
  | Some h => VNum h
  | None => _height b
  end.

(** The foreground layer shows its target height, as attribute and as
    style. *)
Definition foreground_ok (b : t) : Prop :=
  attr_height (_element b) = foreground_target b /\
  css_height (_element b) = foreground_target b.

End Bar.

(** ** The range filter: [FacetHistogramFilter] *)

Module Filter.

(** A reference to a range object in the store. *)
Abbreviation loc := nat (only parsing).

(** The identity of a function registered as [onFilterChanged]. *)
Definition Callback : Type := nat.

(** The optional [spec] argument; [displayFn] is [None] when the property
    is absent or is not a function. *)
Record Spec : Type := mkSpec { displayFn : option (value -> value) }.

(** What the filter uses of the histogram it is linked to. The two
    conversions return a new range object computed from the values of the
    one they are given. *)
Record Histogram : Type := mkHistogram {
  bars : list Bar.t;
  barWidth : Z;
  totalWidth : Z;
  pixelRangeToBarRange : Range -> Range;
  barRangeToPixelRange : Range -> Range
}.

(** Calls that leave the filter. *)
Inductive Effect : Type :=
| PreventDefault                        (* event.preventDefault() *)
| RangeLabelText (s : string)           (* _currentRangeLabel.text(s) *)
| HighlightRange (barRange : Range)     (* _histogram.highlightRange(barRange) *)
| RangeFilterLeft (v : Z)               (* _rangeFilter.css('left', v) *)
| RangeFilterWidth (v : Z)              (* _rangeFilter.css('width', v) *)
| RangeLabelHidden (hidden : bool)      (* add/removeClass('facet-range-current-hidden') *)
| PageLeftDisabled (disabled : bool)    (* add/removeClass('facet-page-ctrl-disabled') *)
| PageRightDisabled (disabled : bool)
| FilterChanged (handler : Callback) (barRange : Range) (fromUserInput : bool).

Record t : Type := mk {
  _histogram : Histogram;
  _draggingLeft : bool;
  _draggingLeftX : Z;
  _canDragLeft : bool;
  _draggingRight : bool;
  _draggingRightX : Z;
  _canDragRight : bool;
  _pixelRange : loc;
  _barRange : loc;
  _maxBarRange : loc;
  _onFilterChanged : option Callback;
  _spec : option Spec
}.

Definition with_draggingLeft v (f : t) : t :=
  mk (_histogram f) v (_draggingLeftX f) (_canDragLeft f)
     (_draggingRight f) (_draggingRightX f) (_canDragRight f)
     (_pixelRange f) (_barRange f) (_maxBarRange f) (_onFilterChanged f) (_spec f).
Definition with_draggingLeftX v (f : t) : t :=
  mk (_histogram f) (_draggingLeft f) v (_canDragLeft f)
     (_draggingRight f) (_draggingRightX f) (_canDragRight f)
     (_pixelRange f) (_barRange f) (_maxBarRange f) (_onFilterChanged f) (_spec f).
Definition with_canDragLeft v (f : t) : t :=
  mk (_histogram f) (_draggingLeft f) (_draggingLeftX f) v
     (_draggingRight f) (_draggingRightX f) (_canDragRight f)
     (_pixelRange f) (_barRange f) (_maxBarRange f) (_onFilterChanged f) (_spec f).
Definition with_draggingRight v (f : t) : t :=
  mk (_histogram f) (_draggingLeft f) (_draggingLeftX f) (_canDragLeft f)
     v (_draggingRightX f) (_canDragRight f)
     (_pixelRange f) (_barRange f) (_maxBarRange f) (_onFilterChanged f) (_spec f).
Definition with_draggingRightX v (f : t) : t :=
  mk (_histogram f) (_draggingLeft f) (_draggingLeftX f) (_canDragLeft f)
     (_draggingRight f) v (_canDragRight f)
     (_pixelRange f) (_barRange f) (_maxBarRange f) (_onFilterChanged f) (_spec f).
Definition with_canDragRight v (f : t) : t :=
  mk (_histogram f) (_draggingLeft f) (_draggingLeftX f) (_canDragLeft f)
     (_draggingRight f) (_draggingRightX f) v
     (_pixelRange f) (_barRange f) (_maxBarRange f) (_onFilterChanged f) (_spec f).
Definition with_pixelRange v (f : t) : t :=
  mk (_histogram f) (_draggingLeft f) (_draggingLeftX f) (_canDragLeft f)
     (_draggingRight f) (_draggingRightX f) (_canDragRight f)
     v (_barRange f) (_maxBarRange f) (_onFilterChanged f) (_spec f).
Definition with_barRange v (f : t) : t :=
  mk (_histogram f) (_draggingLeft f) (_draggingLeftX f) (_canDragLeft f)
     (_draggingRight f) (_draggingRightX f) (_canDragRight f)
     (_pixelRange f) v (_maxBarRange f) (_onFilterChanged f) (_spec f).
Definition with_onFilterChanged v (f : t) : t :=
  mk (_histogram f) (_draggingLeft f) (_draggingLeftX f) (_canDragLeft f)
     (_draggingRight f) (_draggingRightX f) (_canDragRight f)
     (_pixelRange f) (_barRange f) (_maxBarRange f) v (_spec f).

(** *** The world a handler runs in, and the monad of handlers *)

Record World : Type := mkWorld {
  heap : list Range;
  self : t;
  log : list Effect
}.

Definition M (A : Type) : Type := World -> result A * World.

Definition ret {A} (a : A) : M A := fun w => (Ok a, w).

Definition bind {A B} (m : M A) (k : A -> M B) : M B :=
  fun w =>
    match m w with
    | (Ok a, w') => k a w'
    | (TypeError, w') => (TypeError, w')
    end.

Definition throw {A} : M A := fun w => (TypeError, w).

Notation "'let*' x ':=' c 'in' k" := (bind c (fun x => k))
  (at level 10, x name, c at level 100, k at level 200).
Notation "c '>>' k" := (bind c (fun _ => k))
  (at level 90, right associativity).

(** [this] *)
Definition this : M t := fun w => (Ok (self w), w).

(** [this.field = v] *)
Definition assign (upd : t -> t) : M unit :=
  fun w => (Ok tt, mkWorld (heap w) (upd (self w)) (log w)).

(** A new object [{from: .., to: ..}]. *)
Definition alloc (r : Range) : M loc :=
  fun w => (Ok (length (heap w)), mkWorld (heap w ++ [r]) (self w) (log w)).

(** Reading the fields of a range object. *)
Definition load (l : loc) : M Range := fun w => (Ok (heap w !!! l), w).

(** Rewriting the fields of a range object in place. *)
Definition update (l : loc) (f : Range -> Range) : M unit :=
  fun w => (Ok tt, mkWorld (<[l := f (heap w !!! l)]> (heap w)) (self w) (log w)).

Definition emit (e : Effect) : M unit :=
  fun w => (Ok tt, mkWorld (heap w) (self w) (e :: log w)).

(** Reading a property of [o]: a [TypeError] when [o] is [undefined] or
    [null]. *)
Definition deref {A} (o : option A) : M A :=
  match o with
  | Some a => ret a
  | None => throw
  end.

Definition when (b : bool) (m : M unit) : M unit := if b then m else ret tt.

(** *** The constructor *)

(** The fields as the constructor leaves them: nothing armed, the pixel
    and bar ranges at [{0, 0}], the widest range from bar [0] to the last
    bar, no callback. The jQuery lookups of the constructor and the class
    it removes from the filter element are not part of the state. *)
Definition new (histogram : Histogram) (spec : option Spec) : World :=
  let maxBarRange := {| from := 0; to := Z.of_nat (length (bars histogram)) - 1 |} in
  mkWorld [mkRange 0 0; mkRange 0 0; maxBarRange]
          (mk histogram false 0 false false 0 false 0%nat 1%nat 2%nat None spec)
          [].

(** *** [updateUI] *)

Definition updateUI (barRange pixelRange : loc) : M unit :=
  let* self := this in
  let bars := bars (_histogram self) in
  let* br := load barRange in
  let* leftBar := deref (js_index bars (from br)) in
  let leftBarMetadata := Bar.metadata leftBar in
  let* rightBar := deref (js_index bars (to br)) in
  let rightBarMetadata := Bar.metadata rightBar in
  let* leftList := deref leftBarMetadata in
  let firstMetadata := js_index leftList 0 in
  let* rightList := deref rightBarMetadata in
  let lastMetadata := js_index rightList (Z.of_nat (length rightList) - 1) in
  let* first := deref firstMetadata in
  let fromLabel := Entry.label first in
  let* last := deref lastMetadata in
  let toLabel := Entry.toLabel last in
  let displayFn := match _spec self with Some spec => displayFn spec | None => None end in
  let fromLabel :=
    match displayFn with Some f => f (Entry.binStart first) | None => fromLabel end in
  let toLabel :=
    match displayFn with Some f => f (Entry.binEnd last) | None => toLabel end in
  emit (RangeLabelText (to_string fromLabel +:+ " - " +:+ to_string toLabel)) >>
  emit (HighlightRange br) >>
  let* pr := load pixelRange in
  emit (RangeFilterLeft (from pr)) >>
  emit (RangeFilterWidth (to pr - from pr)) >>
  let* maxBarRange := load (_maxBarRange self) in
  emit (RangeLabelHidden ((from br =? from maxBarRange) && (to br =? to maxBarRange))) >>
  emit (PageLeftDisabled (from br =? from maxBarRange)) >>
  emit (PageRightDisabled (to br =? to maxBarRange)).

(** *** The commit path *)

Definition setFilterBarRange (barRange : loc) (fromUserInput : bool) : M unit :=
  let* self := this in
  let* br := load barRange in
  let* pixelRange := alloc (barRangeToPixelRange (_histogram self) br) in
  assign (with_pixelRange pixelRange) >>
  assign (with_barRange barRange) >>
  updateUI barRange pixelRange >>
  let* self := this in
  match _onFilterChanged self with
  | Some handler => let* br := load barRange in emit (FilterChanged handler br fromUserInput)
  | None => ret tt
  end.

Definition setFilterPixelRange (pixelRange : loc) (fromUserInput : bool) : M unit :=
  let* self := this in
  let* pr := load pixelRange in
  let* barRange := alloc (pixelRangeToBarRange (_histogram self) pr) in
  setFilterBarRange barRange fromUserInput.

(** *** The properties [onFilterChanged], [barRange] and [pixelRange] *)

Definition get_onFilterChanged : M (option Callback) :=
  let* self := this in ret (_onFilterChanged self).

(** The argument is [Some f] for a function [f], [None] for any other
    value. *)
Definition set_onFilterChanged (value : option Callback) : M unit :=
  match value with
  | Some f => assign (with_onFilterChanged (Some f))
  | None => assign (with_onFilterChanged None)
  end.

Definition get_barRange : M loc := let* self := this in ret (_barRange self).
Definition set_barRange (value : loc) : M unit := setFilterBarRange value false.

Definition get_pixelRange : M loc := let* self := this in ret (_pixelRange self).
Definition set_pixelRange (value : loc) : M unit := setFilterPixelRange value false.

(** *** Dragging: [_initializeDragging]

    [barWidth] and [totalWidth] are read from the histogram once, when the
    handlers are installed; the histogram is fixed here, so reading them
    at each use is the same. *)

(** [calculateFrom] and [calculateTo] applied to the object at [range]. *)
Definition calculateFrom_at (range : loc) (offset : Z) : M unit :=
  let* self := this in
  update range (fun r => calculateFrom r offset (barWidth (_histogram self))
                                       (totalWidth (_histogram self))).

Definition calculateTo_at (range : loc) (offset : Z) : M unit :=
  let* self := this in
  update range (fun r => calculateTo r offset (barWidth (_histogram self))
                                     (totalWidth (_histogram self))).

(** The handler of [mouseup] and of [mouseleave] on the filter element;
    it returns [false] when it has handled the event. *)
Definition endDragging (clientX : Z) : M bool :=
  let* self := this in
  if _draggingLeft self || _draggingRight self then
    emit PreventDefault >>
    let* pr := load (_pixelRange self) in
    let* range := alloc {| from := from pr; to := to pr |} in
    (let* self := this in
     when (_draggingLeft self)
       (assign (with_canDragLeft false) >>
        assign (with_draggingLeft false) >>
        calculateFrom_at range (clientX - _draggingLeftX self))) >>
    (let* self := this in
     when (_draggingRight self)
       (assign (with_canDragRight false) >>
        assign (with_draggingRight false) >>
        calculateTo_at range (clientX - _draggingRightX self))) >>
    setFilterPixelRange range true >>
    ret false
  else ret true.

(** The handler of [mousemove] on the filter element. *)
Definition mousemove (clientX : Z) : M unit :=
  let* self := this in
  if _canDragLeft self || _canDragRight self then
    let* pr := load (_pixelRange self) in
    let* range := alloc {| from := from pr; to := to pr |} in
    (let* self := this in
     when (_canDragLeft self)
       (when (negb (_draggingLeft self)) (assign (with_draggingLeft true)) >>
        calculateFrom_at range (clientX - _draggingLeftX self))) >>
    (let* self := this in
     when (_canDragRight self)
       (when (negb (_draggingRight self)) (assign (with_draggingRight true)) >>
        calculateTo_at range (clientX - _draggingRightX self))) >>
    let* self := this in
    let* r := load range in
    let* barRange := alloc (pixelRangeToBarRange (_histogram self) r) in
    updateUI barRange range
  else ret tt.

(** The handlers of [mousedown] on the two handles. *)
Definition leftHandle_mousedown (clientX : Z) : M bool :=
  emit PreventDefault >>
  assign (with_canDragLeft true) >>
  assign (with_draggingLeft false) >>
  assign (with_draggingLeftX clientX) >>
  ret false.

Definition rightHandle_mousedown (clientX : Z) : M bool :=
  emit PreventDefault >>
  assign (with_canDragRight true) >>
  assign (with_draggingRight false) >>
  assign (with_draggingRightX clientX) >>
  ret false.

(** *** Pagination: [_initializePagination] *)

Definition pageLeft_click : M unit :=
  let* self := this in
  let* br := load (_barRange self) in
  let from' := from br in
  let to' := to br in
  let* maxBarRange := load (_maxBarRange self) in
  let maxFrom := from maxBarRange in
  if from' >? maxFrom then
    let offset := to' - from' + 1 in
    let offset := if from' - offset <? maxFrom then from' - maxFrom else offset in
    let* barRange := alloc {| from := from' - offset; to := to' - offset |} in
    setFilterBarRange barRange true
  else ret tt.

Definition pageRight_click : M unit :=
  let* self := this in
  let* br := load (_barRange self) in
  let from' := from br in
  let to' := to br in
  let* maxBarRange := load (_maxBarRange self) in
  let maxTo := to maxBarRange in
  if to' <? maxTo then
    let offset := to' - from' + 1 in
    let offset := if to' + offset >? maxTo then maxTo - to' else offset in
    let* barRange := alloc {| from := from' + offset; to := to' + offset |} in
    setFilterBarRange barRange true
  else ret tt.

(** *** Events *)

Inductive Event : Type :=
| LeftHandleDown (clientX : Z)
| RightHandleDown (clientX : Z)
| MouseMove (clientX : Z)
| MouseUp (clientX : Z)
| MouseLeave (clientX : Z)
| PageLeftClick
| PageRightClick.

Definition discard {A} (m : M A) : M unit := let* _ := m in ret tt.

Definition handle (e : Event) : M unit :=
  match e with
  | LeftHandleDown x => discard (leftHandle_mousedown x)
  | RightHandleDown x => discard (rightHandle_mousedown x)
  | MouseMove x => mousemove x
  | MouseUp x => discard (endDragging x)
  | MouseLeave x => discard (endDragging x)
  | PageLeftClick => pageLeft_click
  | PageRightClick => pageRight_click
  end.

(** The world after a handler has run, whether it returned or raised. *)
Definition after {A} (m : M A) (w : World) : World := snd (m w).

Definition outcome {A} (m : M A) (w : World) : result A := fst (m w).

(** A sequence of events, each handled in the world the previous one left;
    an error raised by one handler does not stop the next event. *)
Definition dispatch (es : list Event) (w : World) : World :=
  fold_left (fun w e => after (handle e) w) es w.

(** *** Observations *)

(** The values of the committed ranges and of the widest range. *)
Definition committed_barRange (w : World) : Range := heap w !!! _barRange (self w).
Definition committed_pixelRange (w : World) : Range := heap w !!! _pixelRange (self w).
Definition maxBarRange (w : World) : Range := heap w !!! _maxBarRange (self w).

(** The fields that hold references point into the store. *)
Definition well_formed (w : World) : Prop :=
  (_pixelRange (self w) < length (heap w))%nat /\
  (_barRange (self w) < length (heap w))%nat /\
  (_maxBarRange (self w) < length (heap w))%nat.

(** The calls of the [onFilterChanged] callback in a log, newest first. *)
Definition notifications (l : list Effect) : list (Callback * Range * bool) :=
  omap (fun e => match e with
                 | FilterChanged h r u => Some (h, r, u)
                 | _ => None
                 end) l.

(** The texts written to the range label in a log, newest first: one per
    refresh of the UI. *)
Definition label_texts (l : list Effect) : list string :=
  omap (fun e => match e with RangeLabelText s => Some s | _ => None end) l.

(** [bars[i]] exists and its metadata is a list with at least one entry. *)
Definition bar_with_metadata (bars : list Bar.t) (i : Z) : bool :=
  match js_index bars i with
  | Some bar => match Bar.metadata bar with
                | Some (_ :: _) => true
                | _ => false
                end
  | None => false
  end.

(** What [updateUI] needs of the bar range it is given. *)
Definition displayable (bars : list Bar.t) (barRange : Range) : bool :=
  bar_with_metadata bars (from barRange) && bar_with_metadata bars (to barRange).

(** The range the pointer position [clientX] stands for while the handles
    flagged by [left] and [right] follow it. *)
Definition dragged (f : t) (left right : bool) (clientX : Z) (pr : Range) : Range :=
  let h := _histogram f in
  let r := mkRange (from pr) (to pr) in
  let r := if left
           then calculateFrom r (clientX - _draggingLeftX f) (barWidth h) (totalWidth h)
           else r in
  if right
  then calculateTo r (clientX - _draggingRightX f) (barWidth h) (totalWidth h)
  else r.

(** A call [f({from: .., to: ..})] with a new range object as argument. *)
Definition call_with {A} (r : Range) (f : loc -> M A) : M A :=
  let* l := alloc r in f l.

(** The flags after a [mousemove]: an armed handle is being dragged. *)
Definition start_dragging (f : t) : t :=
  let f := if _canDragLeft f && negb (_draggingLeft f)
           then with_draggingLeft true f else f in
  if _canDragRight f && negb (_draggingRight f)
  then with_draggingRight true f else f.

(** The flags after the end of a drag: a dragged handle is released. *)
Definition stop_dragging (f : t) : t :=
  let f := if _draggingLeft f
           then with_draggingLeft false (with_canDragLeft false f) else f in
  if _draggingRight f
  then with_draggingRight false (with_canDragRight false f) else f.

(** Whether the handler of [e] reaches the commit path in [w]: the end of
    a drag in progress, and a page click away from the boundary. *)
Definition commits (e : Event) (w : World) : bool :=
  match e with
  | MouseUp _ | MouseLeave _ => _draggingLeft (self w) || _draggingRight (self w)
  | PageLeftClick => from (committed_barRange w) >? from (maxBarRange w)
  | PageRightClick => to (committed_barRange w) <? to (maxBarRange w)
  | LeftHandleDown _ | RightHandleDown _ | MouseMove _ => false
  end.

(** The callback, if one is registered in [w], was called once on the way
    from [w] to [w'], with the bar range committed in [w'] and the flag
    [fromUserInput]; it was not called if none is registered. *)
Definition notified_once (fromUserInput : bool) (w w' : World) : Prop :=
  notifications (log w') =
  match _onFilterChanged (self w) with
  | Some handler => [(handler, committed_barRange w', fromUserInput)]
  | None => []
  end ++ notifications (log w).

(** The committed ranges of [w'] are those of [w]: the same objects with
    the same contents, and no object of [w] has changed. *)
Definition same_commit (w w' : World) : Prop :=
  _pixelRange (self w') = _pixelRange (self w) /\
  _barRange (self w') = _barRange (self w) /\
  take (length (heap w)) (heap w') = heap w /\
  committed_pixelRange w' = committed_pixelRange w /\
  committed_barRange w' = committed_barRange w.

(** [i] is the index of a bar: [0 <= i <= lastBarIndex]. *)
Definition indexes_bar (bars : list Bar.t) (i : Z) : Prop :=
  0 <= i <= Z.of_nat (length bars) - 1.

(** [bars[i]] has a metadata list with a first entry. *)
Definition nonempty_metadata (bars : list Bar.t) (i : Z) : Prop :=
  exists bar first rest,
    js_index bars i = Some bar /\ Bar.metadata bar = Some (first :: rest).

(** The two entries the range label is made from: the first entry of
    [bars[from]] and the last entry of [bars[to]]; [None] where one of them
    does not exist. *)
Definition label_entries (bars : list Bar.t) (br : Range) : option (Entry.t * Entry.t) :=
  match js_index bars (from br), js_index bars (to br) with
  | Some leftBar, Some rightBar =>
    match Bar.metadata leftBar, Bar.metadata rightBar with
    | Some leftList, Some rightList =>
      match js_index leftList 0, js_index rightList (Z.of_nat (length rightList) - 1) with
      | Some first, Some last => Some (first, last)
      | _, _ => None
      end
    | _, _ => None
    end
  | _, _ => None
  end.

(** The text of the range label: the label of the first entry and the
    [toLabel] of the last one, or [displayFn] of their [binStart] and
    [binEnd] when a [displayFn] is configured. *)
Definition range_label (spec : option Spec) (first last : Entry.t) : string :=
  match match spec with Some s => displayFn s | None => None end with
  | Some f => to_string (f (Entry.binStart first)) +:+ " - " +:+ to_string (f (Entry.binEnd last))
  | None => to_string (Entry.label first) +:+ " - " +:+ to_string (Entry.toLabel last)
  end.

(** The text of the range label with [binEnd] standing in for an absent
    [toLabel]. *)
Definition range_label_with_fallback (first last : Entry.t) : string :=
  to_string (Entry.label first) +:+ " - " +:+
  to_string (js_or (Entry.toLabel last) (Entry.binEnd last)).

(** The calls one refresh of the UI makes, newest first. *)
Definition ui_effects (spec : option Spec) (maxBarRange br pr : Range)
    (first last : Entry.t) : list Effect :=
  [ PageRightDisabled (to br =? to maxBarRange);
    PageLeftDisabled (from br =? from maxBarRange);
    RangeLabelHidden ((from br =? from maxBarRange) && (to br =? to maxBarRange));
    RangeFilterWidth (to pr - from pr);
    RangeFilterLeft (from pr);
    HighlightRange br;
    RangeLabelText (range_label spec first last) ].

(** One page to the left and to the right in the words of the
    specification: the window moves by its own width, stops at the edge of
    the widest range, and keeps its width. *)
Definition page_left (maxBarRange br : Range) : Range :=
  let width := to br - from br + 1 in
  let from' := Z.max (from maxBarRange) (from br - width) in
  {| from := from'; to := from' + (to br - from br) |}.

Definition page_right (maxBarRange br : Range) : Range :=
  let width := to br - from br + 1 in
  let to' := Z.min (to maxBarRange) (to br + width) in
  {| from := to' - (to br - from br); to := to' |}.

End Filter.

(** ** Example data *)

Module Fixtures.

(** The two bars of the label example: [{binStart: 0, binEnd: 10,
    label: "A"}] and [{binStart: 10, binEnd: 20, label: "B"}]. *)
Definition entryA : Entry.t :=
  Entry.mk (VStr "A") VUndefined (VNum 0) (VNum 10) VUndefined VUndefined.
Definition entryB : Entry.t :=
  Entry.mk (VStr "B") VUndefined (VNum 10) (VNum 20) VUndefined VUndefined.

(** The second entry with a [toLabel]. *)
Definition entryB_toLabel : Entry.t :=
  Entry.mk (VStr "B") (VStr "C") (VNum 10) (VNum 20) VUndefined VUndefined.

Definition bar_of (x : Z) (md : list Entry.t) : Bar.t :=
  Bar.set_metadata (Some md) (Bar.new x 20 5).

Definition histogram_of (bars : list Bar.t) : Filter.Histogram :=
  Filter.mkHistogram bars 20 (20 * Z.of_nat (length bars))
    (Histogram.pixelRangeToBarRange 20 (Z.of_nat (length bars)))
    (Histogram.barRangeToPixelRange 20).

Definition two_bars : Filter.Histogram :=
  histogram_of [bar_of 0 [entryA]; bar_of 20 [entryB]].

Definition two_bars_toLabel : Filter.Histogram :=
  histogram_of [bar_of 0 [entryA]; bar_of 20 [entryB_toLabel]].

(** Ten bars of 20 pixels, one entry each. *)
Definition ten_bars : Filter.Histogram :=
  histogram_of (map (fun i => bar_of (20 * Z.of_nat i) [entryA]) (seq 0 10)).

(** A filter on [h] with callback [7] registered and [r] committed through
    the [barRange] property. *)
Definition committed (h : Filter.Histogram) (r : Range) : Filter.World :=
  Filter.after (Filter.call_with r Filter.set_barRange)
    (Filter.after (Filter.set_onFilterChanged (Some 7%nat)) (Filter.new h None)).

End Fixtures.

(** ** The [info] object, described *)

(** The [info] object of a bar whose metadata is [first :: rest]: four
    sequences with one value per entry, and a [binStart] and a [binEnd]
    sequence whose presence the first entry decides. *)
Definition info_of (first : Entry.t) (rest : list Entry.t) : Info.t :=
  let md := first :: rest in
  {| Info.label := map (fun e => js_or (Entry.label e) (Entry.binStart e)) md;
     Info.toLabel := map (fun e => js_or (Entry.toLabel e) (Entry.binEnd e)) md;
     Info.count := map Entry.count md;
     Info.metadata := map Entry.metadata md;
     Info.binStart := if is_defined (Entry.binStart first)
                      then Some (map Entry.binStart md) else None;
     Info.binEnd := if is_defined (Entry.binEnd first)
                    then Some (map Entry.binEnd md) else None |}.

(** ** Sessions: sequences of events and of calls of the public interface *)

Module Session.

Import Filter.

(** What can happen to a filter: an event on its elements, a write to one
    of its properties, a call of one of its two public methods. A range
    argument is a new object of the caller. *)
Inductive Action : Type :=
| UI (e : Event)
| WriteBarRange (value : Range)
| WritePixelRange (value : Range)
| WriteOnFilterChanged (value : option Callback)
| CallSetFilterBarRange (barRange : Range) (fromUserInput : bool)
| CallSetFilterPixelRange (pixelRange : Range) (fromUserInput : bool).

Definition perform (a : Action) : M unit :=
  match a with
  | UI e => handle e
  | WriteBarRange value => call_with value set_barRange
  | WritePixelRange value => call_with value set_pixelRange
  | WriteOnFilterChanged value => set_onFilterChanged value
  | CallSetFilterBarRange barRange fromUserInput =>
      call_with barRange (fun l => setFilterBarRange l fromUserInput)
  | CallSetFilterPixelRange pixelRange fromUserInput =>
      call_with pixelRange (fun l => setFilterPixelRange l fromUserInput)
  end.

(** The actions one after the other; an error raised by one of them does
    not stop the next. *)
Definition play (actions : list Action) (w : World) : World :=
  fold_left (fun w a => after (perform a) w) actions w.

(** A handle that is being dragged is armed. *)
Definition flags_ok (f : t) : bool :=
  implb (_draggingLeft f) (_canDragLeft f) &&
  implb (_draggingRight f) (_canDragRight f).

(** No handle is armed or being dragged. *)
Definition idle (f : t) : bool :=
  negb (_canDragLeft f) && negb (_draggingLeft f) &&
  negb (_canDragRight f) && negb (_draggingRight f).

(** Every range object of [w] is in [w'], with the same contents. *)
Definition grows (w w' : World) : Prop :=
  take (length (heap w)) (heap w') = heap w.

(** The filter [f'] is linked to the same histogram, display options and
    widest-range object as [f]. *)
Definition same_config (f f' : t) : Prop :=
  _histogram f' = _histogram f /\ _spec f' = _spec f /\
  _maxBarRange f' = _maxBarRange f.

(** From [w] to [w']: no range object of [w] has changed, the filter is
    linked to the same histogram and widest range, and its references point
    into the store. *)
Definition step_to (w w' : World) : Prop :=
  grows w w' /\ same_config (self w) (self w') /\ well_formed w'.

(** The calls a commit of the bar range [r] makes, newest first, with the
    committed pixel range [pr]: the refresh of the UI and then the callback,
    or nothing when the refresh raises. *)
Definition commit_effects (f : t) (maxBarRange r pr : Range) (u : bool) : list Effect :=
  match label_entries (bars (_histogram f)) r with
  | Some (first, last) =>
      match _onFilterChanged f with
      | Some handler => [FilterChanged handler r u]
      | None => []
      end ++ ui_effects (_spec f) maxBarRange r pr first last
  | None => []
  end.

(** The calls of the callback a commit of the bar range [r] makes. *)
Definition commit_notifications (f : t) (r : Range) (u : bool)
    : list (Callback * Range * bool) :=
  if displayable (bars (_histogram f)) r then
    match _onFilterChanged f with
    | Some handler => [(handler, r, u)]
    | None => []
    end
  else [].

(** A bar range inside the widest range: [maxFrom <= from <= to <= maxTo]. *)
Definition within (maxBarRange br : Range) : Prop :=
  from maxBarRange <= from br /\ from br <= to br /\ to br <= to maxBarRange.

(** The state the newest refresh of the UI left the two page controls and
    the range label in; [None] before the first refresh. *)
Definition page_left_disabled (l : list Effect) : option bool :=
  head (omap (fun e => match e with PageLeftDisabled b => Some b | _ => None end) l).

Definition page_right_disabled (l : list Effect) : option bool :=
  head (omap (fun e => match e with PageRightDisabled b => Some b | _ => None end) l).

Definition range_label_hidden (l : list Effect) : option bool :=
  head (omap (fun e => match e with RangeLabelHidden b => Some b | _ => None end) l).

(** The bar ranges the histogram was told to highlight, newest first. *)
Definition highlighted_ranges (l : list Effect) : list Range :=
  omap (fun e => match e with HighlightRange r => Some r | _ => None end) l.

End Session.

(** ** The layers of a bar *)

Module Layers.

Import Bar.

(** The three rects carry the bar's position and width, the back layer its
    height, and the shadow layer the full height of the chart. *)
Definition aligned (b : Bar.t) : Prop :=
  (attr_x (_shadowElement b) = _x b /\ attr_x (_backElement b) = _x b /\
   attr_x (_element b) = _x b) /\
  (attr_y (_shadowElement b) = _y b /\ attr_y (_backElement b) = _y b /\
   attr_y (_element b) = _y b) /\
  (attr_width (_shadowElement b) = _width b /\ attr_width (_backElement b) = _width b /\
   attr_width (_element b) = _width b) /\
  (attr_height (_backElement b) = _height b /\ css_height (_backElement b) = _height b) /\
  (attr_height (_shadowElement b) = VStr "100%" /\
   css_height (_shadowElement b) = VStr "100%").

(** The class of the foreground rect follows the [highlighted] flag; the
    classes of the two other rects are those of the constructor. *)
Definition classes_ok (b : Bar.t) : Prop :=
  attr_class (_element b) =
    BAR_CLASSES +:+ (if _highlighted b then " " +:+ HIGHLIGHTED_CLASS else "") /\
  attr_class (_backElement b) = BAR_CLASSES /\
  attr_class (_shadowElement b) = BAR_CLASSES +:+ " " +:+ SHADOW_BAR_CLASS.

End Layers.

(** ** The event handlers of a bar *)

Module BarEvents.

(** The identity of a function given as handler. *)
Definition Callback : Type := nat.

(** The three handler slots of a bar, [null] ([None]) or a function. *)
Record Handlers : Type := mkHandlers {
  _onMouseEnterHandler : option Callback;
  _onMouseLeaveHandler : option Callback;
  _onClickHandler : option Callback
}.

(** The slots as the constructor leaves them. *)
Definition new : Handlers := mkHandlers None None None.

(** The setters of [onMouseEnter], [onMouseLeave] and [onClick]; the
    argument is [Some f] for a function [f], [None] for any other value. *)
Definition set_onMouseEnter (value : option Callback) (h : Handlers) : Handlers :=
  match value with
  | Some f => mkHandlers (Some f) (_onMouseLeaveHandler h) (_onClickHandler h)
  | None => mkHandlers None (_onMouseLeaveHandler h) (_onClickHandler h)
  end.

Definition set_onMouseLeave (value : option Callback) (h : Handlers) : Handlers :=
  match value with
  | Some f => mkHandlers (_onMouseEnterHandler h) (Some f) (_onClickHandler h)
  | None => mkHandlers (_onMouseEnterHandler h) None (_onClickHandler h)
  end.

Definition set_onClick (value : option Callback) (h : Handlers) : Handlers :=
  match value with
  | Some f => mkHandlers (_onMouseEnterHandler h) (_onMouseLeaveHandler h) (Some f)
  | None => mkHandlers (_onMouseEnterHandler h) (_onMouseLeaveHandler h) None
  end.

(** What handling an event does, in order. *)
Inductive Effect : Type :=
| PreventDefault                 (* event.preventDefault() *)
| StopPropagation                (* event.stopPropagation() *)
| Call (handler : Callback).     (* handler(this, event) *)

(** [_onMouseEnter], [_onMouseLeave] and [_onClick]. *)
Definition _onMouseEnter (h : Handlers) : list Effect :=
  [PreventDefault; StopPropagation] ++
  match _onMouseEnterHandler h with Some f => [Call f] | None => [] end.

Definition _onMouseLeave (h : Handlers) : list Effect :=
  [PreventDefault; StopPropagation] ++
  match _onMouseLeaveHandler h with Some f => [Call f] | None => [] end.

Definition _onClick (h : Handlers) : list Effect :=
  [PreventDefault; StopPropagation] ++
  match _onClickHandler h with Some f => [Call f] | None => [] end.

(** The three properties, and writes to them. *)
Inductive Slot : Type := EnterSlot | LeaveSlot | ClickSlot.

#[global] Instance Slot_eq_dec : EqDecision Slot.
Proof. solve_decision. Defined.

Definition write (slot : Slot) (value : option Callback) (h : Handlers) : Handlers :=
  match slot with
  | EnterSlot => set_onMouseEnter value h
  | LeaveSlot => set_onMouseLeave value h
  | ClickSlot => set_onClick value h
  end.

Definition writes (l : list (Slot * option Callback)) (h : Handlers) : Handlers :=
  fold_left (fun h wr => write wr.1 wr.2 h) l h.

(** The getters of the three properties. *)
Definition get (slot : Slot) (h : Handlers) : option Callback :=
  match slot with
  | EnterSlot => _onMouseEnterHandler h
  | LeaveSlot => _onMouseLeaveHandler h
  | ClickSlot => _onClickHandler h
  end.

(** The handler of the DOM event that belongs to [slot]. *)
Definition handle (slot : Slot) (h : Handlers) : list Effect :=
  match slot with
  | EnterSlot => _onMouseEnter h
  | LeaveSlot => _onMouseLeave h
  | ClickSlot => _onClick h
  end.

(** The value of the last write to [slot] in [l], if there is one. *)
Definition last_write (slot : Slot) (l : list (Slot * option Callback))
    : option (option Callback) :=
  last (omap (fun wr => if decide (wr.1 = slot) then Some wr.2 else None) l).

(** *** Binding to the DOM: [_addHandlers] and [_removeHandlers] *)

(** The four SVG elements of a bar. *)
Inductive Node : Type := Group | Shadow | Back | Front.

#[global] Instance Node_eq_dec : EqDecision Node.
Proof. solve_decision. Defined.

(** The bar's own methods, bound as listeners. *)
Inductive Listener : Type := EnterListener | LeaveListener | ClickListener.

(** The listeners bound with jQuery: the element, the event type and the
    listener, in the order of binding. *)
Abbreviation Bindings := (list (Node * string * Listener)) (only parsing).

(** [_groupElement.hover(enter, leave)] binds [mouseenter] and
    [mouseleave]; [_groupElement.click(click)] binds [click]. *)
Definition _addHandlers (b : Bindings) : Bindings :=
  b ++ [(Group, "mouseenter", EnterListener); (Group, "mouseleave", LeaveListener);
        (Group, "click", ClickListener)].

(** [element.unbind(name)] removes from [element] the listeners of the
    event types that [name] stands for; which types a name stands for
    ([covers name type]) is jQuery's matter. *)
Definition unbind (covers : string -> string -> bool) (node : Node) (name : string)
    (b : Bindings) : Bindings :=
  filter (fun entry => ~ (entry.1.1 = node /\ covers name entry.1.2 = true)) b.

Definition _removeHandlers (covers : string -> string -> bool) (b : Bindings) : Bindings :=
  unbind covers Back "hover"
    (unbind covers Back "click"
       (unbind covers Front "hover"
          (unbind covers Front "click" b))).

(** The listeners bound to [node]. *)
Definition listeners_of (node : Node) (b : Bindings) : list (string * Listener) :=
  omap (fun entry => if decide (entry.1.1 = node) then Some (entry.1.2, entry.2) else None) b.

End BarEvents.

(** * Properties *)

(** ** The drag arithmetic *)

Ltac range_cases :=
  repeat match goal with
         | |- context [Z.gtb ?a ?b] => rewrite (Z.gtb_ltb a b)
         | |- context [Z.ltb ?a ?b] => destruct (Z.ltb_spec a b)
         end.

Lemma calculateFrom_policy r delta barWidth totalWidth :
  calculateFrom r delta barWidth totalWidth = drag_left_policy r delta barWidth totalWidth.
Proof.
  unfold calculateFrom, drag_left_policy, set_from, set_to; cbn.
  range_cases; cbn; f_equal; lia.
Qed.

Lemma calculateTo_policy r delta barWidth totalWidth :
  calculateTo r delta barWidth totalWidth = drag_right_policy r delta barWidth totalWidth.
Proof.
  unfold calculateTo, drag_right_policy, set_from, set_to; cbn.
  range_cases; cbn; f_equal; lia.
Qed.

(** C1. For every pixel range with [0 <= from <= to <= totalWidth] and every
    drag delta, [calculateFrom] is the left-handle policy ([from] moves by
    the delta clamped at [0]; too little width pushes [to] to
    [from + barWidth], or snaps the range to
    [[totalWidth - barWidth, totalWidth]] when that would exceed
    [totalWidth]), and [calculateTo] is its mirror ([to] clamped at
    [totalWidth]; too little width pulls [from] to [to - barWidth], or snaps
    the range to [[0, barWidth]] when that would be negative). *)
Theorem drag_follows_policy r delta barWidth totalWidth :
  pixel_range_ok totalWidth r ->
  calculateFrom r delta barWidth totalWidth = drag_left_policy r delta barWidth totalWidth /\
  calculateTo r delta barWidth totalWidth = drag_right_policy r delta barWidth totalWidth.
Proof.
  intros _. split; [apply calculateFrom_policy | apply calculateTo_policy].
Qed.

Lemma drag_follows_policy_witness :
  pixel_range_ok 200 (mkRange 0 200) /\
  calculateFrom (mkRange 0 200) 190 20 200 = mkRange 180 200 /\
  calculateTo (mkRange 0 200) (-195) 20 200 = mkRange 0 20.
Proof.
  assert (H : pixel_range_ok 200 (mkRange 0 200)) by (unfold pixel_range_ok; simpl; lia).
  split; [exact H |].
  destruct (drag_follows_policy (mkRange 0 200) 190 20 200 H) as [Hl _].
  destruct (drag_follows_policy (mkRange 0 200) (-195) 20 200 H) as [_ Hr].
  split; [rewrite Hl | rewrite Hr]; reflexivity.
Defined.

Lemma calculateFrom_in_range r delta barWidth totalWidth :
  to r <= totalWidth -> 0 <= barWidth <= totalWidth ->
  let r' := calculateFrom r delta barWidth totalWidth in
  pixel_range_ok totalWidth r' /\ barWidth <= to r' - from r'.
Proof.
  intros Hto Hw. unfold calculateFrom, pixel_range_ok, set_from, set_to; cbn.
  range_cases; cbn; lia.
Qed.

Lemma calculateTo_in_range r delta barWidth totalWidth :
  0 <= from r -> 0 <= barWidth <= totalWidth ->
  let r' := calculateTo r delta barWidth totalWidth in
  pixel_range_ok totalWidth r' /\ barWidth <= to r' - from r'.
Proof.
  intros Hfrom Hw. unfold calculateTo, pixel_range_ok, set_from, set_to; cbn.
  range_cases; cbn; lia.
Qed.















(** ** The histogram bar *)

Lemma new_foreground_ok x width height : Bar.foreground_ok (Bar.new x width height).
Proof. split; reflexivity. Qed.

Lemma apply_foreground_ok o b : Bar.foreground_ok b -> Bar.foreground_ok (Bar.apply o b).
Proof.
  unfold Bar.foreground_ok, Bar.foreground_target.
  intros [Hattr Hcss].
  destruct o as [v | v | v | v | [v |] | v | v]; cbn; try (split; assumption).
  - destruct (Bar._selectedHeight b); cbn; split; auto.
  - split; reflexivity.
  - split; reflexivity.
  - destruct (negb (Bool.eqb v (Bar._highlighted b))); cbn; split; assumption.
Qed.

Lemma run_foreground_ok ops b : Bar.foreground_ok b -> Bar.foreground_ok (Bar.run ops b).
Proof.
  revert b. induction ops as [| o ops IH]; intros b Hb; cbn.
  - exact Hb.
  - apply IH, apply_foreground_ok, Hb.
Qed.

(** C8. After the constructor and any sequence of property writes, the
    foreground layer shows [selectedHeight] when that is not [null] and the
    bar's height otherwise; every further write keeps it so. Writing
    [height] while a selection height is set changes the back layer and
    leaves the foreground layer as it is; writing [null] to [selectedHeight]
    puts the foreground layer back to the bar's current height. *)
Theorem foreground_height_invariant x width height ops :
  let b := Bar.run ops (Bar.new x width height) in
  Bar.foreground_ok b /\
  (forall o, Bar.foreground_ok (Bar.apply o b)) /\
  (forall v,
      Bar.attr_height (Bar._backElement (Bar.set_height v b)) = VNum v /\
      Bar._height (Bar.set_height v b) = VNum v /\
      match Bar._selectedHeight b with
      | Some h => Bar._element (Bar.set_height v b) = Bar._element b /\
                  Bar.attr_height (Bar._element (Bar.set_height v b)) = VNum h
      | None => Bar.attr_height (Bar._element (Bar.set_height v b)) = VNum v
      end) /\
  Bar.attr_height (Bar._element (Bar.set_selectedHeight None b)) = Bar._height b /\
  (forall h, Bar.attr_height (Bar._element (Bar.set_selectedHeight (Some h) b)) = VNum h).
Proof.
  intros b.
  assert (Hb : Bar.foreground_ok b) by apply run_foreground_ok, new_foreground_ok.
  split; [exact Hb |].
  split; [intros o; apply apply_foreground_ok, Hb |].
  split; [| split; [reflexivity | intros h; reflexivity]].
  intros v. split; [reflexivity | split; [reflexivity |]].
  destruct Hb as [Hattr _]. unfold Bar.foreground_target in Hattr.
  unfold Bar.set_height. destruct (Bar._selectedHeight b) as [h |]; cbn.
  - split; [reflexivity | exact Hattr].
  - reflexivity.
Qed.

(** C7, as amended. Whatever the bar held before, after a list
    [first :: rest] is assigned to [metadata] the next read of [info] is
    computed from that list: four sequences as long as the list, with per
    entry [label || binStart], [toLabel || binEnd], [count] and [metadata],
    and a [binStart] (a [binEnd]) sequence exactly when the first entry
    defines [binStart] ([binEnd]). *)
Theorem info_from_current_metadata (b : Bar.t) (first : Entry.t) (rest : list Entry.t) :
  let i := info_of first rest in
  Bar.info (Bar.set_metadata (Some (first :: rest)) b) = Ok i /\
  length (Info.label i) = length (first :: rest) /\
  length (Info.toLabel i) = length (first :: rest) /\
  length (Info.count i) = length (first :: rest) /\
  length (Info.metadata i) = length (first :: rest) /\
  (is_Some (Info.binStart i) <-> Entry.binStart first <> VUndefined) /\
  (is_Some (Info.binEnd i) <-> Entry.binEnd first <> VUndefined).
Proof.
  cbn zeta. split.
  - unfold Bar.info, info_of, js_index; simpl.
    destruct (is_defined (Entry.binStart first)), (is_defined (Entry.binEnd first));
      reflexivity.
  - unfold info_of; cbn [Info.label Info.toLabel Info.count Info.metadata
                         Info.binStart Info.binEnd].
    rewrite !length_map.
    repeat split; try reflexivity.
    + destruct (Entry.binStart first); cbn; intros [? ?]; congruence.
    + destruct (Entry.binStart first); cbn; intros ?; try congruence; eexists; reflexivity.
    + destruct (Entry.binEnd first); cbn; intros [? ?]; congruence.
    + destruct (Entry.binEnd first); cbn; intros ?; try congruence; eexists; reflexivity.
Qed.

(** C7, as stated, fails: with a first entry that defines [binStart] and
    [binEnd] and a second entry that defines neither, [info] still contains
    both sequences, with [undefined] in the second place. *)
Lemma info_bins_counterexample :
  let e1 := Entry.mk (VStr "A") VUndefined (VNum 0) (VNum 10) (VNum 3) VUndefined in
  let e2 := Entry.mk (VStr "B") VUndefined VUndefined VUndefined (VNum 4) VUndefined in
  let b := Bar.set_metadata (Some [e1; e2]) (Bar.new 0 20 7) in
  exists i,
    Bar.info b = Ok i /\
    Info.binStart i = Some [VNum 0; VUndefined] /\
    Info.binEnd i = Some [VNum 10; VUndefined] /\
    ~ Forall (fun e => Entry.binStart e <> VUndefined) [e1; e2] /\
    ~ Forall (fun e => Entry.binEnd e <> VUndefined) [e1; e2].
Proof.
  cbn zeta. eexists. split; [reflexivity |].
  split; [reflexivity | split; [reflexivity |]].
  split; intros H; inversion H as [| ? ? _ H2]; inversion H2 as [| ? ? Hu _]; apply Hu; reflexivity.
Qed.


(** ** The range filter *)

Section FilterProperties.

Import Filter.

(** Unfolds the monad of handlers down to functions on worlds. *)
Ltac run_handler :=
  cbv [bind ret throw this assign alloc load update emit deref when discard
       calculateFrom_at calculateTo_at];
  cbn [fst snd heap self log].

Lemma updateUI_run barRange pixelRange w :
  updateUI barRange pixelRange w =
  match label_entries (bars (_histogram (self w))) (heap w !!! barRange) with
  | Some (first, last) =>
      (Ok tt,
       mkWorld (heap w) (self w)
         (ui_effects (_spec (self w)) (heap w !!! _maxBarRange (self w))
                     (heap w !!! barRange) (heap w !!! pixelRange) first last ++ log w))
  | None => (TypeError, w)
  end.
Proof.
  unfold updateUI, label_entries. run_handler.
  destruct (js_index (bars (_histogram (self w))) (from (heap w !!! barRange)))
    as [leftBar |]; [| reflexivity].
  destruct (js_index (bars (_histogram (self w))) (to (heap w !!! barRange)))
    as [rightBar |]; [| reflexivity].
  destruct (Bar.metadata leftBar) as [leftList |]; [| reflexivity].
  destruct (Bar.metadata rightBar) as [rightList |]; [| reflexivity].
  destruct (js_index leftList 0) as [first |]; [| reflexivity].
  destruct (js_index rightList (Z.of_nat (length rightList) - 1)) as [last |];
    [| reflexivity].
  unfold ui_effects, range_label.
  destruct (_spec (self w)) as [[[f |]] |]; reflexivity.
Qed.

Lemma js_index_is_Some {A} (l : list A) (i : Z) :
  is_Some (js_index l i) <-> 0 <= i <= Z.of_nat (length l) - 1.
Proof.
  unfold js_index. destruct (Z.ltb_spec i 0) as [Hneg | Hpos].
  - split; [intros [? ?]; discriminate | lia].
  - rewrite lookup_lt_is_Some. lia.
Qed.

Lemma js_index_first {A} (l : list A) : js_index l 0 = head l.
Proof. destruct l; reflexivity. Qed.

Lemma js_index_last_is_Some {A} (l : list A) :
  is_Some (js_index l (Z.of_nat (length l) - 1)) <-> l <> [].
Proof.
  rewrite js_index_is_Some. destruct l; cbn [length]; split; try congruence; lia.
Qed.

Lemma bar_with_metadata_true bars i :
  bar_with_metadata bars i = true <-> indexes_bar bars i /\ nonempty_metadata bars i.
Proof.
  unfold bar_with_metadata, indexes_bar, nonempty_metadata.
  rewrite <- js_index_is_Some.
  destruct (js_index bars i) as [bar |].
  - destruct (Bar.metadata bar) as [[| first rest] |] eqn:Hmd; split.
    + discriminate.
    + intros [_ (bar' & first & rest & [= <-] & Hmd')]. congruence.
    + intros _. split; [eexists; reflexivity | eauto].
    + reflexivity.
    + discriminate.
    + intros [_ (bar' & first & rest & [= <-] & Hmd')]. congruence.
  - split; [discriminate | intros [[? [=]] _]].
Qed.

Lemma label_entries_is_Some bars br :
  is_Some (label_entries bars br) <-> displayable bars br = true.
Proof.
  unfold label_entries, displayable, bar_with_metadata.
  destruct (js_index bars (from br)) as [leftBar |];
    [| split; [intros [? [=]] | discriminate]].
  destruct (js_index bars (to br)) as [rightBar |];
    [| rewrite andb_false_r; split; [intros [? [=]] | discriminate]].
  destruct (Bar.metadata leftBar) as [leftList |];
    [| split; [intros [? [=]] | discriminate]].
  destruct (Bar.metadata rightBar) as [rightList |];
    [| rewrite andb_false_r; split; [intros [? [=]] | discriminate]].
  pose proof (js_index_last_is_Some rightList) as Hlast.
  rewrite js_index_first.
  destruct leftList as [| first rest]; cbn [head];
    [split; [intros [? [=]] | discriminate] |].
  destruct (js_index rightList (Z.of_nat (length rightList) - 1)) as [last |].
  - destruct rightList; [exfalso; apply (proj1 Hlast); eauto |].
    split; [reflexivity | eauto].
  - destruct rightList; [split; [intros [? [=]] | discriminate] |].
    exfalso. assert (Hs : is_Some (@None Entry.t)) by (apply Hlast; discriminate).
    destruct Hs as [? [=]].
Qed.

Lemma label_entries_None bars br :
  label_entries bars br = None <-> displayable bars br = false.
Proof.
  pose proof (label_entries_is_Some bars br) as H.
  destruct (label_entries bars br), (displayable bars br); split; try reflexivity;
    intros; try discriminate.
  - exfalso. assert (false = true) by (apply H; eauto). discriminate.
  - exfalso. destruct (proj2 H eq_refl) as [? [=]].
Qed.

Lemma setFilterBarRange_run barRange fromUserInput w :
  (barRange < length (heap w))%nat ->
  (_maxBarRange (self w) < length (heap w))%nat ->
  setFilterBarRange barRange fromUserInput w =
  let br := heap w !!! barRange in
  let pr := barRangeToPixelRange (_histogram (self w)) br in
  let self' := with_barRange barRange (with_pixelRange (length (heap w)) (self w)) in
  match label_entries (bars (_histogram (self w))) br with
  | Some (first, last) =>
      (Ok tt,
       mkWorld (heap w ++ [pr]) self'
         (match _onFilterChanged (self w) with
          | Some handler => [FilterChanged handler br fromUserInput]
          | None => []
          end ++
          ui_effects (_spec (self w)) (heap w !!! _maxBarRange (self w)) br pr first last ++
          log w))
  | None => (TypeError, mkWorld (heap w ++ [pr]) self' (log w))
  end.
Proof.
  intros Hbar Hmax. unfold setFilterBarRange. run_handler.
  rewrite updateUI_run. cbn [heap self log with_barRange with_pixelRange
    _histogram _spec _maxBarRange _onFilterChanged].
  rewrite !(lookup_total_app_l (heap w)) by assumption.
  rewrite (list_lookup_total_middle (heap w) []) by reflexivity.
  destruct (label_entries _ _) as [[first last] |]; [| reflexivity].
  cbn [heap self log with_barRange with_pixelRange _onFilterChanged].
  destruct (_onFilterChanged (self w)); cbn [heap self log];
    [rewrite !(lookup_total_app_l (heap w)) by assumption |]; reflexivity.
Qed.

Lemma lookup_total_snoc (h : list Range) (r : Range) : (h ++ [r]) !!! length h = r.
Proof. apply (list_lookup_total_middle h []). reflexivity. Qed.

Lemma take_snoc (h : list Range) (r : Range) : take (length h) (h ++ [r]) = h.
Proof. rewrite take_app_length. reflexivity. Qed.

Lemma notifications_app l1 l2 :
  notifications (l1 ++ l2) = notifications l1 ++ notifications l2.
Proof. apply omap_app. Qed.

Lemma notifications_ui_effects spec mx br pr first last :
  notifications (ui_effects spec mx br pr first last) = [].
Proof. reflexivity. Qed.

Lemma label_texts_ui_effects spec mx br pr first last :
  label_texts (ui_effects spec mx br pr first last) = [range_label spec first last].
Proof. reflexivity. Qed.

(** What a commit leaves behind, whether the refresh of the UI raised or
    not. *)
Lemma setFilterBarRange_after barRange fromUserInput w :
  (barRange < length (heap w))%nat ->
  (_maxBarRange (self w) < length (heap w))%nat ->
  let w' := after (setFilterBarRange barRange fromUserInput) w in
  heap w' = heap w ++ [barRangeToPixelRange (_histogram (self w)) (heap w !!! barRange)] /\
  self w' = with_barRange barRange (with_pixelRange (length (heap w)) (self w)) /\
  committed_barRange w' = heap w !!! barRange /\
  committed_pixelRange w' = barRangeToPixelRange (_histogram (self w)) (heap w !!! barRange) /\
  maxBarRange w' = maxBarRange w /\
  (well_formed w -> well_formed w').
Proof.
  intros Hbar Hmax. unfold after.
  rewrite setFilterBarRange_run by assumption. cbn zeta.
  assert (Hheap_self :
    forall l,
      let w' := mkWorld (heap w ++ [barRangeToPixelRange (_histogram (self w))
                                                          (heap w !!! barRange)])
                        (with_barRange barRange (with_pixelRange (length (heap w)) (self w)))
                        l in
      committed_barRange w' = heap w !!! barRange /\
      committed_pixelRange w' =
        barRangeToPixelRange (_histogram (self w)) (heap w !!! barRange) /\
      maxBarRange w' = maxBarRange w /\
      (well_formed w -> well_formed w')).
  { intros l. unfold committed_barRange, committed_pixelRange, maxBarRange, well_formed.
    cbn [heap self with_barRange with_pixelRange _barRange _pixelRange _maxBarRange].
    rewrite (lookup_total_app_l (heap w) _ barRange) by assumption.
    rewrite (lookup_total_app_l (heap w) _ (_maxBarRange (self w))) by assumption.
    rewrite lookup_total_snoc, length_app. cbn [length].
    repeat split; lia. }
  destruct (label_entries _ _) as [[first last] |]; cbn [snd heap self];
    (split; [reflexivity | split; [reflexivity | apply Hheap_self]]).
Qed.

(** A commit of a range that can be displayed returns, and calls the
    callback once if there is one. *)
Lemma setFilterBarRange_notifies barRange fromUserInput w :
  (barRange < length (heap w))%nat ->
  (_maxBarRange (self w) < length (heap w))%nat ->
  displayable (bars (_histogram (self w))) (heap w !!! barRange) = true ->
  outcome (setFilterBarRange barRange fromUserInput) w = Ok tt /\
  notified_once fromUserInput w (after (setFilterBarRange barRange fromUserInput) w).
Proof.
  intros Hbar Hmax Hdisp.
  pose proof (setFilterBarRange_after barRange fromUserInput w Hbar Hmax)
    as (_ & _ & Hcommitted & _).
  unfold notified_once. rewrite Hcommitted. clear Hcommitted.
  unfold outcome, after. rewrite setFilterBarRange_run by assumption. cbn zeta.
  apply label_entries_is_Some in Hdisp. destruct Hdisp as [[first last] ->].
  cbn [fst snd log]. split; [reflexivity |].
  rewrite !notifications_app, notifications_ui_effects.
  destruct (_onFilterChanged (self w)); reflexivity.
Qed.

(** A commit of a range that cannot be displayed raises in the refresh of
    the UI, after the range is stored and before the callback is called. *)
Lemma setFilterBarRange_raises barRange fromUserInput w :
  (barRange < length (heap w))%nat ->
  (_maxBarRange (self w) < length (heap w))%nat ->
  displayable (bars (_histogram (self w))) (heap w !!! barRange) = false ->
  outcome (setFilterBarRange barRange fromUserInput) w = TypeError /\
  log (after (setFilterBarRange barRange fromUserInput) w) = log w.
Proof.
  intros Hbar Hmax Hdisp.
  unfold outcome, after. rewrite setFilterBarRange_run by assumption. cbn zeta.
  apply label_entries_None in Hdisp. rewrite Hdisp. split; reflexivity.
Qed.

Lemma setFilterPixelRange_run pixelRange fromUserInput w :
  setFilterPixelRange pixelRange fromUserInput w =
  setFilterBarRange (length (heap w)) fromUserInput
    (mkWorld (heap w ++ [pixelRangeToBarRange (_histogram (self w)) (heap w !!! pixelRange)])
             (self w) (log w)).
Proof. reflexivity. Qed.

Lemma setFilterPixelRange_notifies pixelRange fromUserInput w :
  (_maxBarRange (self w) < length (heap w))%nat ->
  displayable (bars (_histogram (self w)))
              (pixelRangeToBarRange (_histogram (self w)) (heap w !!! pixelRange)) = true ->
  outcome (setFilterPixelRange pixelRange fromUserInput) w = Ok tt /\
  notified_once fromUserInput w (after (setFilterPixelRange pixelRange fromUserInput) w) /\
  committed_barRange (after (setFilterPixelRange pixelRange fromUserInput) w) =
    pixelRangeToBarRange (_histogram (self w)) (heap w !!! pixelRange).
Proof.
  intros Hmax Hdisp. unfold outcome, after. rewrite setFilterPixelRange_run.
  set (w1 := mkWorld _ _ _).
  assert (Hlen : (length (heap w) < length (heap w1))%nat)
    by (unfold w1; cbn [heap]; rewrite length_app; cbn [length]; lia).
  assert (Hmax1 : (_maxBarRange (self w1) < length (heap w1))%nat)
    by (unfold w1 in *; cbn [self] in *; lia).
  assert (Hval : heap w1 !!! length (heap w) =
                 pixelRangeToBarRange (_histogram (self w)) (heap w !!! pixelRange))
    by (unfold w1; cbn [heap]; apply lookup_total_snoc).
  destruct (setFilterBarRange_notifies (length (heap w)) fromUserInput w1 Hlen Hmax1)
    as [Hok Hnote].
  { rewrite Hval. exact Hdisp. }
  destruct (setFilterBarRange_after (length (heap w)) fromUserInput w1 Hlen Hmax1)
    as (_ & _ & Hcommitted & _).
  split; [exact Hok | split; [exact Hnote |]].
  unfold after in Hcommitted. rewrite Hcommitted. exact Hval.
Qed.

Lemma insert_snoc (h : list Range) (r r' : Range) :
  <[length h := r']> (h ++ [r]) = h ++ [r'].
Proof.
  induction h as [| x h IH]; cbn; [reflexivity |].
  f_equal. exact IH.
Qed.

Lemma endDragging_run clientX w :
  _draggingLeft (self w) || _draggingRight (self w) = true ->
  endDragging clientX w =
  (let* _ := setFilterPixelRange (length (heap w)) true in ret false)
    (mkWorld (heap w ++ [dragged (self w) (_draggingLeft (self w)) (_draggingRight (self w))
                                 clientX (committed_pixelRange w)])
             (stop_dragging (self w))
             (PreventDefault :: log w)).
Proof.
  intros Hdrag. unfold endDragging, stop_dragging, dragged, committed_pixelRange.
  run_handler. rewrite Hdrag. cbn [heap self log].
  destruct (_draggingLeft (self w)) eqn:Hleft;
    cbn [heap self log with_canDragLeft with_draggingLeft _draggingRight
         _draggingLeftX _draggingRightX _histogram];
    destruct (_draggingRight (self w)) eqn:Hright;
    cbn [heap self log with_canDragLeft with_draggingLeft with_canDragRight
         with_draggingRight _draggingRight _draggingLeft
         _draggingLeftX _draggingRightX _histogram];
    try discriminate;
    rewrite ?lookup_total_snoc, ?insert_snoc, ?lookup_total_snoc, ?insert_snoc;
    try rewrite Hleft; try rewrite Hright;
    destruct (heap w !!! _pixelRange (self w)); reflexivity.
Qed.

Lemma endDragging_idle clientX w :
  _draggingLeft (self w) || _draggingRight (self w) = false ->
  endDragging clientX w = (Ok true, w).
Proof.
  intros Hidle. unfold endDragging. run_handler. rewrite Hidle. reflexivity.
Qed.

Lemma mousemove_run clientX w :
  _canDragLeft (self w) || _canDragRight (self w) = true ->
  mousemove clientX w =
  let range := dragged (self w) (_canDragLeft (self w)) (_canDragRight (self w))
                       clientX (committed_pixelRange w) in
  let barRange := pixelRangeToBarRange (_histogram (self w)) range in
  updateUI (length (heap w ++ [range])) (length (heap w))
    (mkWorld ((heap w ++ [range]) ++ [barRange]) (start_dragging (self w)) (log w)).
Proof.
  intros Harmed. unfold mousemove, start_dragging, dragged, committed_pixelRange.
  run_handler. rewrite Harmed. cbn [heap self log].
  destruct (_canDragLeft (self w)) eqn:Hleft, (_draggingLeft (self w)) eqn:Hdl;
    cbn [heap self log negb andb with_draggingLeft with_draggingRight _canDragRight
         _draggingRight _draggingLeft _canDragLeft _draggingLeftX _draggingRightX _histogram];
    destruct (_canDragRight (self w)) eqn:Hright, (_draggingRight (self w)) eqn:Hdr;
    cbn [heap self log negb andb with_draggingLeft with_draggingRight _canDragRight
         _draggingRight _draggingLeft _canDragLeft _draggingLeftX _draggingRightX _histogram];
    try discriminate;
    rewrite ?lookup_total_snoc, ?insert_snoc, ?lookup_total_snoc, ?insert_snoc,
            ?lookup_total_snoc;
    try rewrite Hleft; try rewrite Hright; try rewrite Hdl; try rewrite Hdr;
    destruct (heap w !!! _pixelRange (self w)); reflexivity.
Qed.

Lemma mousemove_idle clientX w :
  _canDragLeft (self w) || _canDragRight (self w) = false ->
  mousemove clientX w = (Ok tt, w).
Proof.
  intros Hidle. unfold mousemove. run_handler. rewrite Hidle. reflexivity.
Qed.

Lemma page_left_offset maxBarRange br :
  let offset := to br - from br + 1 in
  let offset := if from br - offset <? from maxBarRange
                then from br - from maxBarRange else offset in
  {| from := from br - offset; to := to br - offset |} = page_left maxBarRange br.
Proof. unfold page_left; cbn. range_cases; f_equal; lia. Qed.

Lemma page_right_offset maxBarRange br :
  let offset := to br - from br + 1 in
  let offset := if to br + offset >? to maxBarRange
                then to maxBarRange - to br else offset in
  {| from := from br + offset; to := to br + offset |} = page_right maxBarRange br.
Proof. unfold page_right; cbn. range_cases; f_equal; lia. Qed.

Lemma pageLeft_click_run w :
  pageLeft_click w =
  if from (committed_barRange w) >? from (maxBarRange w) then
    setFilterBarRange (length (heap w)) true
      (mkWorld (heap w ++ [page_left (maxBarRange w) (committed_barRange w)])
               (self w) (log w))
  else (Ok tt, w).
Proof.
  unfold pageLeft_click, committed_barRange, maxBarRange. run_handler.
  destruct (_ >? _); [| reflexivity].
  pose proof (page_left_offset (heap w !!! _maxBarRange (self w))
                               (heap w !!! _barRange (self w))) as Hoff.
  cbn zeta in Hoff. rewrite Hoff. reflexivity.
Qed.

Lemma pageRight_click_run w :
  pageRight_click w =
  if to (committed_barRange w) <? to (maxBarRange w) then
    setFilterBarRange (length (heap w)) true
      (mkWorld (heap w ++ [page_right (maxBarRange w) (committed_barRange w)])
               (self w) (log w))
  else (Ok tt, w).
Proof.
  unfold pageRight_click, committed_barRange, maxBarRange. run_handler.
  destruct (_ <? _); [| reflexivity].
  pose proof (page_right_offset (heap w !!! _maxBarRange (self w))
                                (heap w !!! _barRange (self w))) as Hoff.
  cbn zeta in Hoff. rewrite Hoff. reflexivity.
Qed.

Lemma snoc_fresh (w : World) (r : Range) (l : list Effect) (f : t) :
  let w1 := mkWorld (heap w ++ [r]) f l in
  (length (heap w) < length (heap w1))%nat /\ heap w1 !!! length (heap w) = r.
Proof.
  cbn [heap]. rewrite length_app, lookup_total_snoc. cbn [length]. split; [lia | reflexivity].
Qed.

(** C3. With the committed bar range inside the widest range: a click on
    "page left" changes nothing when [from] is at the left boundary, and a
    click on "page right" changes nothing when [to] is at the right
    boundary; otherwise the click commits the window moved by its own width
    [to - from + 1], or by the smaller offset that puts it on the boundary
    when a full page would pass it, and the widest range stays as it was. *)
Theorem pagination_shifts_window w :
  well_formed w ->
  from (maxBarRange w) <= from (committed_barRange w) ->
  from (committed_barRange w) <= to (committed_barRange w) ->
  to (committed_barRange w) <= to (maxBarRange w) ->
  (from (committed_barRange w) = from (maxBarRange w) -> pageLeft_click w = (Ok tt, w)) /\
  (to (committed_barRange w) = to (maxBarRange w) -> pageRight_click w = (Ok tt, w)) /\
  (from (committed_barRange w) <> from (maxBarRange w) ->
   committed_barRange (after pageLeft_click w) =
     page_left (maxBarRange w) (committed_barRange w) /\
   maxBarRange (after pageLeft_click w) = maxBarRange w /\
   well_formed (after pageLeft_click w)) /\
  (to (committed_barRange w) <> to (maxBarRange w) ->
   committed_barRange (after pageRight_click w) =
     page_right (maxBarRange w) (committed_barRange w) /\
   maxBarRange (after pageRight_click w) = maxBarRange w /\
   well_formed (after pageRight_click w)).
Proof.
  intros Hwf Hlo Hmid Hhi.
  assert (Hpaged : forall r,
    let w1 := mkWorld (heap w ++ [r]) (self w) (log w) in
    committed_barRange (after (setFilterBarRange (length (heap w)) true) w1) = r /\
    maxBarRange (after (setFilterBarRange (length (heap w)) true) w1) = maxBarRange w /\
    well_formed (after (setFilterBarRange (length (heap w)) true) w1)).
  { intros r w1. destruct Hwf as (Hp & Hb & Hm).
    destruct (snoc_fresh w r (log w) (self w)) as [Hlen Hval]. fold w1 in Hlen, Hval.
    assert (Hm1 : (_maxBarRange (self w1) < length (heap w1))%nat)
      by (unfold w1 in *; cbn [self] in *; lia).
    destruct (setFilterBarRange_after (length (heap w)) true w1 Hlen Hm1)
      as (_ & _ & Hc & _ & Hmax & Hwf').
    split; [rewrite Hc; exact Hval | split].
    - rewrite Hmax. unfold maxBarRange, w1; cbn [heap self].
      apply lookup_total_app_l. exact Hm.
    - apply Hwf'. unfold well_formed, w1; cbn [heap self].
      rewrite length_app; cbn [length]. lia. }
  split; [| split; [| split]].
  - intros Heq. rewrite pageLeft_click_run.
    destruct (Z.gtb_spec (from (committed_barRange w)) (from (maxBarRange w)));
      [lia | reflexivity].
  - intros Heq. rewrite pageRight_click_run.
    destruct (Z.ltb_spec (to (committed_barRange w)) (to (maxBarRange w)));
      [lia | reflexivity].
  - intros Hne. unfold after. rewrite pageLeft_click_run.
    destruct (Z.gtb_spec (from (committed_barRange w)) (from (maxBarRange w))); [| lia].
    apply Hpaged.
  - intros Hne. unfold after. rewrite pageRight_click_run.
    destruct (Z.ltb_spec (to (committed_barRange w)) (to (maxBarRange w))); [| lia].
    apply Hpaged.
Qed.

Lemma pagination_shifts_window_witness :
  let w := Fixtures.committed Fixtures.ten_bars (mkRange 2 4) in
  let w1 := after pageRight_click w in
  maxBarRange w = mkRange 0 9 /\
  committed_barRange w = mkRange 2 4 /\
  committed_barRange w1 = mkRange 5 7 /\
  committed_barRange (after pageRight_click w1) = mkRange 7 9.
Proof.
  intros w w1.
  assert (Hmax : maxBarRange w = mkRange 0 9) by reflexivity.
  assert (Hbr : committed_barRange w = mkRange 2 4) by reflexivity.
  assert (Hwf : well_formed w) by (unfold well_formed; vm_compute; lia).
  destruct (pagination_shifts_window w Hwf) as (_ & _ & _ & Hright);
    [rewrite ?Hmax, ?Hbr; simpl; lia .. |].
  destruct Hright as (Hbr1 & Hmax1 & Hwf1); [rewrite Hmax, Hbr; simpl; lia |].
  fold w1 in Hbr1, Hmax1, Hwf1. rewrite Hmax, Hbr in Hbr1. rewrite Hmax in Hmax1.
  assert (Hbr1' : committed_barRange w1 = mkRange 5 7) by (rewrite Hbr1; reflexivity).
  destruct (pagination_shifts_window w1 Hwf1) as (_ & _ & _ & Hright);
    [rewrite ?Hmax1, ?Hbr1'; simpl; lia .. |].
  destruct Hright as (Hbr2 & _); [rewrite Hmax1, Hbr1'; simpl; lia |].
  rewrite Hmax1, Hbr1' in Hbr2.
  split; [exact Hmax | split; [exact Hbr | split; [exact Hbr1' |]]].
  rewrite Hbr2. reflexivity.
Defined.

Lemma stop_dragging_fields f :
  _onFilterChanged (stop_dragging f) = _onFilterChanged f /\
  _histogram (stop_dragging f) = _histogram f /\
  _maxBarRange (stop_dragging f) = _maxBarRange f /\
  _pixelRange (stop_dragging f) = _pixelRange f /\
  _barRange (stop_dragging f) = _barRange f.
Proof.
  unfold stop_dragging. destruct (_draggingLeft f); cbn;
    destruct (_draggingRight f); cbn; repeat split; reflexivity.
Qed.

Lemma start_dragging_fields f :
  _histogram (start_dragging f) = _histogram f /\
  _spec (start_dragging f) = _spec f /\
  _maxBarRange (start_dragging f) = _maxBarRange f /\
  _pixelRange (start_dragging f) = _pixelRange f /\
  _barRange (start_dragging f) = _barRange f.
Proof.
  unfold start_dragging.
  destruct (_canDragLeft f), (_draggingLeft f); cbn;
    destruct (_canDragRight f), (_draggingRight f); cbn; repeat split; reflexivity.
Qed.

Lemma after_then_ret {A B} (m : M A) (b : B) w :
  snd ((let* _ := m in ret b) w) = after m w.
Proof. unfold after, bind, ret. destruct (m w) as [[a |] w']; reflexivity. Qed.

(** The end of a drag in progress goes through the commit path with
    [fromUserInput = true]. *)
Lemma endDragging_notifies clientX w :
  well_formed w ->
  _draggingLeft (self w) || _draggingRight (self w) = true ->
  displayable (bars (_histogram (self w)))
    (pixelRangeToBarRange (_histogram (self w))
       (dragged (self w) (_draggingLeft (self w)) (_draggingRight (self w)) clientX
                (committed_pixelRange w))) = true ->
  notified_once true w (after (endDragging clientX) w).
Proof.
  intros (Hp & Hb & Hm) Hdrag Hdisp.
  unfold after at 1. rewrite endDragging_run by assumption.
  set (w1 := mkWorld _ _ _). rewrite after_then_ret.
  destruct (stop_dragging_fields (self w)) as (Hcb & Hh & Hmx & _).
  destruct (snoc_fresh w (dragged (self w) (_draggingLeft (self w)) (_draggingRight (self w))
                                  clientX (committed_pixelRange w))
                       (PreventDefault :: log w) (stop_dragging (self w))) as [Hlen Hval].
  fold w1 in Hlen, Hval.
  destruct (setFilterPixelRange_notifies (length (heap w)) true w1) as (_ & Hnote & _).
  - unfold w1 in *; cbn [self] in *. rewrite Hmx. lia.
  - rewrite Hval. unfold w1; cbn [self]. rewrite Hh. exact Hdisp.
  - unfold notified_once in *. rewrite Hnote. unfold w1; cbn [self log]. rewrite Hcb.
    reflexivity.
Qed.

(** C4, as amended. A call of [setFilterBarRange] or [setFilterPixelRange]
    whose bar range indexes two bars with non-empty metadata returns and
    calls [onFilterChanged] once when a callback is registered, never when
    none is, with the committed bar range and the flag of the call: [false]
    for a write to the [barRange] or [pixelRange] property, [true] for the
    end of a drag and for a page click. *)
Theorem commit_notifies_once w :
  well_formed w ->
  let shown := displayable (bars (_histogram (self w))) in
  let to_bars := pixelRangeToBarRange (_histogram (self w)) in
  (forall (l : loc) (u : bool), (l < length (heap w))%nat -> shown (heap w !!! l) = true ->
     outcome (setFilterBarRange l u) w = Ok tt /\
     notified_once u w (after (setFilterBarRange l u) w)) /\
  (forall (l : loc) (u : bool), shown (to_bars (heap w !!! l)) = true ->
     outcome (setFilterPixelRange l u) w = Ok tt /\
     notified_once u w (after (setFilterPixelRange l u) w)) /\
  (forall l : loc, (l < length (heap w))%nat -> shown (heap w !!! l) = true ->
     notified_once false w (after (set_barRange l) w)) /\
  (forall l : loc, shown (to_bars (heap w !!! l)) = true ->
     notified_once false w (after (set_pixelRange l) w)) /\
  (forall clientX : Z,
     _draggingLeft (self w) || _draggingRight (self w) = true ->
     shown (to_bars (dragged (self w) (_draggingLeft (self w)) (_draggingRight (self w))
                             clientX (committed_pixelRange w))) = true ->
     notified_once true w (after (endDragging clientX) w)) /\
  (from (committed_barRange w) > from (maxBarRange w) ->
   shown (page_left (maxBarRange w) (committed_barRange w)) = true ->
   notified_once true w (after pageLeft_click w)) /\
  (to (committed_barRange w) < to (maxBarRange w) ->
   shown (page_right (maxBarRange w) (committed_barRange w)) = true ->
   notified_once true w (after pageRight_click w)).
Proof.
  intros Hwf shown to_bars. pose proof Hwf as (Hp & Hb & Hm).
  assert (Hpaged : forall r, shown r = true ->
    notified_once true w
      (after (setFilterBarRange (length (heap w)) true)
             (mkWorld (heap w ++ [r]) (self w) (log w)))).
  { intros r Hr. set (w1 := mkWorld _ _ _).
    destruct (snoc_fresh w r (log w) (self w)) as [Hlen Hval]. fold w1 in Hlen, Hval.
    destruct (setFilterBarRange_notifies (length (heap w)) true w1) as [_ Hnote].
    - exact Hlen.
    - unfold w1 in *; cbn [self] in *; lia.
    - rewrite Hval. exact Hr.
    - exact Hnote. }
  split; [| split; [| split; [| split; [| split; [| split]]]]].
  - intros l u Hl Hshown. apply setFilterBarRange_notifies; assumption.
  - intros l u Hshown.
    destruct (setFilterPixelRange_notifies l u w Hm Hshown) as (Hok & Hnote & _).
    split; assumption.
  - intros l Hl Hshown.
    destruct (setFilterBarRange_notifies l false w Hl Hm Hshown) as [_ Hnote].
    exact Hnote.
  - intros l Hshown.
    destruct (setFilterPixelRange_notifies l false w Hm Hshown) as (_ & Hnote & _).
    exact Hnote.
  - intros clientX Hdrag Hshown. apply endDragging_notifies; assumption.
  - intros Hgt Hshown. unfold after at 1. rewrite pageLeft_click_run.
    destruct (Z.gtb_spec (from (committed_barRange w)) (from (maxBarRange w))); [| lia].
    apply Hpaged, Hshown.
  - intros Hlt Hshown. unfold after at 1. rewrite pageRight_click_run.
    destruct (Z.ltb_spec (to (committed_barRange w)) (to (maxBarRange w))); [| lia].
    apply Hpaged, Hshown.
Qed.

Lemma commit_notifies_once_witness :
  let w := Fixtures.committed Fixtures.ten_bars (mkRange 2 4) in
  well_formed w /\
  notifications (log (after pageRight_click w)) =
    [(7%nat, mkRange 5 7, true); (7%nat, mkRange 2 4, false)] /\
  notifications (log (after (set_barRange 2%nat) w)) =
    [(7%nat, mkRange 0 9, false); (7%nat, mkRange 2 4, false)].
Proof.
  intros w.
  assert (Hwf : well_formed w) by (unfold well_formed; vm_compute; lia).
  split; [exact Hwf |].
  destruct (commit_notifies_once w Hwf) as (_ & _ & Hset & _ & _ & _ & Hright).
  split.
  - rewrite Hright; [reflexivity | vm_compute; reflexivity | reflexivity].
  - rewrite (Hset 2%nat); [reflexivity | vm_compute; lia | reflexivity].
Defined.

(** C4, as stated, fails: with a callback registered, a call of
    [setFilterBarRange] with a range outside the two bars stores the range,
    raises in [updateUI] and never calls the callback. *)
Lemma commit_without_notification :
  let w := Fixtures.committed Fixtures.two_bars (mkRange 0 1) in
  let call := call_with (mkRange 5 5) (fun l => setFilterBarRange l false) in
  _onFilterChanged (self w) = Some 7%nat /\
  outcome call w = TypeError /\
  committed_barRange (after call w) = mkRange 5 5 /\
  notifications (log (after call w)) = notifications (log w).
Proof. vm_compute. repeat split; reflexivity. Qed.

Lemma displayable_true bars br :
  displayable bars br = true <->
  indexes_bar bars (from br) /\ indexes_bar bars (to br) /\
  nonempty_metadata bars (from br) /\ nonempty_metadata bars (to br).
Proof.
  unfold displayable. rewrite andb_true_iff, !bar_with_metadata_true. tauto.
Qed.

(** C10. [updateUI] returns exactly when [barRange.from] and [barRange.to]
    are indices of bars, [0 <= i <= lastBarIndex], and both bars have a
    metadata list with at least one entry; otherwise it raises.
    [setFilterBarRange] stores the range it is given as it is and returns
    under the same condition on that range. *)
Theorem updateUI_total_iff (barRange pixelRange : loc) (fromUserInput : bool) w :
  (barRange < length (heap w))%nat ->
  well_formed w ->
  let bars := bars (_histogram (self w)) in
  let br := heap w !!! barRange in
  let precondition :=
    indexes_bar bars (from br) /\ indexes_bar bars (to br) /\
    nonempty_metadata bars (from br) /\ nonempty_metadata bars (to br) in
  (outcome (updateUI barRange pixelRange) w = Ok tt <-> precondition) /\
  (outcome (updateUI barRange pixelRange) w = TypeError <-> ~ precondition) /\
  (outcome (setFilterBarRange barRange fromUserInput) w = Ok tt <-> precondition) /\
  committed_barRange (after (setFilterBarRange barRange fromUserInput) w) = br.
Proof.
  intros Hbar (Hp & Hb & Hm) bars br precondition.
  assert (Hpre : displayable bars br = true <-> precondition) by apply displayable_true.
  assert (Hui : outcome (updateUI barRange pixelRange) w =
                if displayable bars br then Ok tt else TypeError).
  { unfold outcome. rewrite updateUI_run. fold bars br.
    destruct (displayable bars br) eqn:Hd.
    - apply label_entries_is_Some in Hd. destruct Hd as [[first last] ->]. reflexivity.
    - apply label_entries_None in Hd. rewrite Hd. reflexivity. }
  assert (Hset : outcome (setFilterBarRange barRange fromUserInput) w =
                 if displayable bars br then Ok tt else TypeError).
  { destruct (displayable bars br) eqn:Hd.
    - apply setFilterBarRange_notifies; assumption.
    - apply setFilterBarRange_raises; assumption. }
  rewrite Hui, Hset.
  split; [| split; [| split]].
  - rewrite <- Hpre. destruct (displayable bars br); split; congruence.
  - rewrite <- Hpre. destruct (displayable bars br); split; congruence.
  - rewrite <- Hpre. destruct (displayable bars br); split; congruence.
  - apply setFilterBarRange_after; assumption.
Qed.

Lemma updateUI_total_iff_witness :
  let w := Fixtures.committed Fixtures.two_bars (mkRange 0 1) in
  (3 < length (heap w))%nat /\
  well_formed w /\
  outcome (updateUI 3%nat 4%nat) w = Ok tt /\
  outcome (updateUI 2%nat 4%nat) (Fixtures.committed Fixtures.ten_bars (mkRange 10 12))
    = Ok tt /\
  outcome (updateUI 3%nat 4%nat) (Fixtures.committed Fixtures.ten_bars (mkRange 10 12))
    = TypeError.
Proof.
  intros w.
  assert (Hlen : (3 < length (heap w))%nat) by (vm_compute; lia).
  assert (Hwf : well_formed w) by (unfold well_formed; vm_compute; lia).
  split; [exact Hlen | split; [exact Hwf |]].
  destruct (updateUI_total_iff 3%nat 4%nat false w Hlen Hwf) as (Hok & _).
  split; [| split; reflexivity].
  apply Hok. apply displayable_true. reflexivity.
Defined.

Lemma same_commit_refl w : same_commit w w.
Proof.
  unfold same_commit. rewrite firstn_all. repeat split; reflexivity.
Qed.

(** A world that differs in the flags and in the log only. *)
Lemma same_commit_flags w f l :
  _pixelRange f = _pixelRange (self w) ->
  _barRange f = _barRange (self w) ->
  same_commit w (mkWorld (heap w) f l).
Proof.
  intros Hp Hb. unfold same_commit, committed_pixelRange, committed_barRange.
  cbn [heap self]. rewrite firstn_all, Hp, Hb. repeat split; reflexivity.
Qed.

(** C5, as amended. With no handle being dragged, a pointer-down on either
    handle followed by pointer-up or pointer-leave, with no pointer-move in
    between, commits nothing: the end-of-drag handler returns [true]
    without acting, the committed ranges and every range object stay as
    they were, the UI is not refreshed and the callback is not called; the
    only call made is the [preventDefault] of the pointer-down. *)
Theorem click_without_move_commits_nothing (down up : Event) (x x' : Z) w :
  _draggingLeft (self w) = false ->
  _draggingRight (self w) = false ->
  down = LeftHandleDown x \/ down = RightHandleDown x ->
  up = MouseUp x' \/ up = MouseLeave x' ->
  let w' := dispatch [down; up] w in
  outcome (endDragging x') (after (handle down) w) = Ok true /\
  heap w' = heap w /\
  same_commit w w' /\
  log w' = PreventDefault :: log w /\
  label_texts (log w') = label_texts (log w) /\
  notifications (log w') = notifications (log w).
Proof.
  intros Hleft Hright Hdown Hup.
  assert (Hend : forall w1, _draggingLeft (self w1) || _draggingRight (self w1) = false ->
                 after (handle up) w1 = w1).
  { intros w1 Hidle. unfold after.
    destruct Hup as [-> | ->]; cbn [handle]; unfold discard, bind;
      rewrite endDragging_idle by assumption; reflexivity. }
  destruct Hdown as [-> | ->]; cbn [dispatch fold_left];
    (rewrite Hend; [| cbn; rewrite ?Hleft, ?Hright; reflexivity]);
    (split; [unfold outcome; rewrite endDragging_idle;
             [reflexivity | cbn; rewrite ?Hleft, ?Hright; reflexivity] |]);
    cbn; (split; [reflexivity |]);
    (split; [apply same_commit_flags; reflexivity |]);
    repeat split; reflexivity.
Qed.

Lemma click_without_move_commits_nothing_witness :
  let w := Fixtures.committed Fixtures.ten_bars (mkRange 2 4) in
  let w' := dispatch [RightHandleDown 100; MouseLeave 130] w in
  _draggingLeft (self w) = false /\
  _draggingRight (self w) = false /\
  committed_barRange w' = mkRange 2 4 /\
  log w' = PreventDefault :: log w.
Proof.
  intros w w'.
  assert (Hl : _draggingLeft (self w) = false) by reflexivity.
  assert (Hr : _draggingRight (self w) = false) by reflexivity.
  destruct (click_without_move_commits_nothing
              (RightHandleDown 100) (MouseLeave 130) 100 130 w Hl Hr
              (or_intror eq_refl) (or_intror eq_refl))
    as (_ & _ & (_ & _ & _ & _ & Hbar) & Hlog & _).
  split; [exact Hl | split; [exact Hr | split; [| exact Hlog]]].
  fold w' in Hbar. rewrite Hbar. reflexivity.
Defined.

(** C5, as stated, fails: after pointer-down on the left handle and
    pointer-up with no move in between, no refresh of the UI has run (the
    range label was written once before and once after) and the handle is
    still armed. *)
Lemma click_without_move_counterexample :
  let w := Fixtures.committed Fixtures.ten_bars (mkRange 2 4) in
  let w' := dispatch [LeftHandleDown 100; MouseUp 100] w in
  length (label_texts (log w)) = 1%nat /\
  length (label_texts (log w')) = 1%nat /\
  log w' = PreventDefault :: log w /\
  _canDragLeft (self w) = false /\
  _canDragLeft (self w') = true.
Proof. vm_compute. repeat split; reflexivity. Qed.

Lemma js_index_snoc {A} (init : list A) (last : A) :
  js_index (init ++ [last]) (Z.of_nat (length (init ++ [last])) - 1) = Some last.
Proof.
  unfold js_index. rewrite length_app. cbn [length].
  destruct (Z.ltb_spec (Z.of_nat (length init + 1) - 1) 0) as [Hneg | _]; [lia |].
  replace (Z.to_nat (Z.of_nat (length init + 1) - 1)) with (length init) by lia.
  apply list_lookup_middle. reflexivity.
Qed.

(** C6, as amended. [updateUI] writes as range label the [label] of the
    first metadata entry of [bars[barRange.from]], the text [" - "] and the
    [toLabel] of the last metadata entry of [bars[barRange.to]], each
    converted to a string; when a [displayFn] is configured the two parts
    are [displayFn] of the first entry's [binStart] and of the last entry's
    [binEnd] instead. *)
Theorem range_label_from_end_entries (barRange pixelRange : loc) w
    (leftBar rightBar : Bar.t) (first last : Entry.t) (rest init : list Entry.t) :
  js_index (bars (_histogram (self w))) (from (heap w !!! barRange)) = Some leftBar ->
  Bar.metadata leftBar = Some (first :: rest) ->
  js_index (bars (_histogram (self w))) (to (heap w !!! barRange)) = Some rightBar ->
  Bar.metadata rightBar = Some (init ++ [last]) ->
  outcome (updateUI barRange pixelRange) w = Ok tt /\
  label_texts (log (after (updateUI barRange pixelRange) w)) =
    match _spec (self w) with
    | Some (mkSpec (Some displayFn)) =>
        to_string (displayFn (Entry.binStart first)) +:+ " - " +:+
        to_string (displayFn (Entry.binEnd last))
    | _ =>
        to_string (Entry.label first) +:+ " - " +:+ to_string (Entry.toLabel last)
    end :: label_texts (log w).
Proof.
  intros Hleft Hlmd Hright Hrmd.
  unfold outcome, after. rewrite updateUI_run.
  unfold label_entries. rewrite Hleft, Hright, Hlmd, Hrmd, js_index_snoc.
  cbn [js_index Z.ltb Z.compare Z.to_nat lookup list_lookup fst snd log].
  split; [reflexivity |].
  unfold ui_effects, range_label.
  destruct (_spec (self w)) as [[[displayFn |]] |]; reflexivity.
Qed.

Lemma range_label_from_end_entries_witness :
  let w := Fixtures.committed Fixtures.two_bars_toLabel (mkRange 0 1) in
  committed_barRange w = mkRange 0 1 /\
  outcome (updateUI 3%nat 4%nat) w = Ok tt /\
  label_texts (log (after (updateUI 3%nat 4%nat) w)) = ["A - C"; "A - C"].
Proof.
  intros w. split; [reflexivity |].
  apply (range_label_from_end_entries 3%nat 4%nat w
           (Fixtures.bar_of 0 [Fixtures.entryA]) (Fixtures.bar_of 20 [Fixtures.entryB_toLabel])
           Fixtures.entryA Fixtures.entryB_toLabel [] []); reflexivity.
Defined.

(** C6, as stated, fails: for the two bars of the example, whose second
    entry has no [toLabel], and the committed range [{from: 0, to: 1}], the
    label written is ["A - undefined"] and not ["A - 20"], the text with
    [binEnd] in the place of the absent [toLabel]. *)
Lemma range_label_counterexample :
  let w := Fixtures.committed Fixtures.two_bars (mkRange 0 1) in
  committed_barRange w = mkRange 0 1 /\
  Entry.toLabel Fixtures.entryB = VUndefined /\
  label_texts (log w) = ["A - undefined"] /\
  range_label_with_fallback Fixtures.entryA Fixtures.entryB = "A - 20" /\
  label_texts (log w) <> [range_label_with_fallback Fixtures.entryA Fixtures.entryB].
Proof. vm_compute. repeat split; try reflexivity. discriminate. Qed.

Lemma updateUI_same_commit (barRange pixelRange : loc) w :
  same_commit w (after (updateUI barRange pixelRange) w).
Proof.
  unfold after. rewrite updateUI_run.
  destruct (label_entries _ _) as [[first last] |]; cbn [snd].
  - apply same_commit_flags; reflexivity.
  - apply same_commit_refl.
Qed.

(** What a [mousemove] with a handle armed leaves behind. *)
Lemma mousemove_after clientX w :
  well_formed w ->
  _canDragLeft (self w) || _canDragRight (self w) = true ->
  let range := dragged (self w) (_canDragLeft (self w)) (_canDragRight (self w))
                       clientX (committed_pixelRange w) in
  let barRange := pixelRangeToBarRange (_histogram (self w)) range in
  let w' := after (mousemove clientX) w in
  heap w' = (heap w ++ [range]) ++ [barRange] /\
  self w' = start_dragging (self w) /\
  log w' =
    match label_entries (bars (_histogram (self w))) barRange with
    | Some (first, last) =>
        ui_effects (_spec (self w)) (maxBarRange w) barRange range first last
    | None => []
    end ++ log w.
Proof.
  intros (Hp & Hb & Hm) Harmed range barRange w'.
  unfold w', after. rewrite mousemove_run by assumption. fold range barRange.
  rewrite updateUI_run. cbn [heap self log].
  destruct (start_dragging_fields (self w)) as (Hh & Hs & Hmx & _).
  rewrite Hh, Hs, Hmx. unfold barRange.
  rewrite (lookup_total_snoc (heap w ++ [range])).
  rewrite (lookup_total_app_l (heap w ++ [range]) _ (length (heap w)))
    by (rewrite length_app; cbn [length]; lia).
  rewrite (lookup_total_snoc (heap w) range).
  rewrite (lookup_total_app_l (heap w ++ [range]) _ (_maxBarRange (self w)))
    by (rewrite length_app; cbn [length]; lia).
  rewrite (lookup_total_app_l (heap w) [range] (_maxBarRange (self w))) by assumption.
  fold (maxBarRange w).
  destruct (label_entries _ _) as [[first last] |]; cbn [snd heap self log];
    repeat split; reflexivity.
Qed.

Lemma mousemove_same_commit clientX w :
  well_formed w -> same_commit w (after (mousemove clientX) w).
Proof.
  intros Hwf.
  destruct (_canDragLeft (self w) || _canDragRight (self w)) eqn:Harmed.
  - destruct (mousemove_after clientX w Hwf Harmed) as (Hheap & Hself & _).
    destruct Hwf as (Hp & Hb & Hm).
    destruct (start_dragging_fields (self w)) as (_ & _ & _ & Hpr & Hbr).
    unfold same_commit, committed_pixelRange, committed_barRange.
    rewrite Hheap, Hself, Hpr, Hbr, <- app_assoc, take_app_length.
    rewrite !(lookup_total_app_l (heap w)) by assumption.
    repeat split; reflexivity.
  - unfold after. rewrite mousemove_idle by assumption. apply same_commit_refl.
Qed.

(** C9. A [mousemove] computes the tentative pixel range from the committed
    pixel range and the anchor of each armed handle, converts it with
    [pixelRangeToBarRange] and refreshes the UI with the two; it calls no
    callback. Neither it nor [updateUI] changes the committed bar range and
    pixel range, and no handler does unless it reaches the commit path. *)
Theorem move_only_repaints clientX w :
  well_formed w ->
  let armed := _canDragLeft (self w) || _canDragRight (self w) in
  let range := dragged (self w) (_canDragLeft (self w)) (_canDragRight (self w))
                       clientX (committed_pixelRange w) in
  let barRange := pixelRangeToBarRange (_histogram (self w)) range in
  let w' := after (mousemove clientX) w in
  same_commit w w' /\
  log w' =
    (if armed then
       match label_entries (bars (_histogram (self w))) barRange with
       | Some (first, last) =>
           ui_effects (_spec (self w)) (maxBarRange w) barRange range first last
       | None => []
       end
     else []) ++ log w /\
  notifications (log w') = notifications (log w) /\
  (forall b p : loc, same_commit w (after (updateUI b p) w)) /\
  (forall e : Event, commits e w = false -> same_commit w (after (handle e) w)).
Proof.
  intros Hwf armed range barRange w'.
  assert (Hlog : log w' =
    (if armed then
       match label_entries (bars (_histogram (self w))) barRange with
       | Some (first, last) =>
           ui_effects (_spec (self w)) (maxBarRange w) barRange range first last
       | None => []
       end
     else []) ++ log w).
  { unfold armed. destruct (_canDragLeft (self w) || _canDragRight (self w)) eqn:Harmed.
    - apply mousemove_after; assumption.
    - unfold w', after. rewrite mousemove_idle by assumption. reflexivity. }
  split; [apply mousemove_same_commit, Hwf |].
  split; [exact Hlog |].
  split.
  { rewrite Hlog, notifications_app.
    destruct armed; [| reflexivity].
    destruct (label_entries _ _) as [[first last] |]; reflexivity. }
  split; [intros b p; apply updateUI_same_commit |].
  intros e Hquiet. destruct e as [x | x | x | x | x | |]; cbn [handle commits] in *.
  - unfold after, discard, leftHandle_mousedown. run_handler.
    apply same_commit_flags; reflexivity.
  - unfold after, discard, rightHandle_mousedown. run_handler.
    apply same_commit_flags; reflexivity.
  - apply mousemove_same_commit, Hwf.
  - unfold after, discard, bind. rewrite endDragging_idle by assumption.
    apply same_commit_refl.
  - unfold after, discard, bind. rewrite endDragging_idle by assumption.
    apply same_commit_refl.
  - unfold after. rewrite pageLeft_click_run, Hquiet. apply same_commit_refl.
  - unfold after. rewrite pageRight_click_run, Hquiet. apply same_commit_refl.
Qed.

Lemma move_only_repaints_witness :
  let w := after (leftHandle_mousedown 100)
                 (Fixtures.committed Fixtures.ten_bars (mkRange 2 4)) in
  let w' := after (mousemove 110) w in
  well_formed w /\
  committed_pixelRange w' = mkRange 40 100 /\
  committed_barRange w' = mkRange 2 4 /\
  log w' =
    [ PageRightDisabled false; PageLeftDisabled false; RangeLabelHidden false;
      RangeFilterWidth 50; RangeFilterLeft 50; HighlightRange (mkRange 3 4);
      RangeLabelText "A - undefined" ] ++ log w.
Proof.
  intros w w'.
  assert (Hwf : well_formed w) by (unfold well_formed; vm_compute; lia).
  split; [exact Hwf |].
  destruct (move_only_repaints 110 w Hwf) as ((_ & _ & _ & Hpr & Hbr) & Hlog & _).
  fold w' in Hpr, Hbr, Hlog.
  split; [rewrite Hpr; reflexivity | split; [rewrite Hbr; reflexivity |]].
  rewrite Hlog. reflexivity.
Defined.

(** X19. The range a handler computes stays inside the histogram and at
    least one bar wide also when both handles follow the pointer, where
    [calculateFrom] and then [calculateTo] are applied to the same copy:
    from a pixel range with [0 <= from <= to <= totalWidth] and with
    [0 <= barWidth <= totalWidth], the result for one or both handles
    satisfies [0 <= from <= to <= totalWidth] and [to - from >= barWidth]. *)
Lemma dragged_in_range f (left right : bool) clientX r :
  pixel_range_ok (totalWidth (_histogram f)) r ->
  0 <= barWidth (_histogram f) <= totalWidth (_histogram f) ->
  left || right = true ->
  let r' := dragged f left right clientX r in
  pixel_range_ok (totalWidth (_histogram f)) r' /\
  barWidth (_histogram f) <= to r' - from r'.
Proof.
  intros (Hfrom & Hle & Hto) Hw Hany. unfold dragged.
  destruct left, right; try discriminate; destruct r as [a b]; cbn [from to] in *.
  - apply calculateTo_in_range; [| exact Hw].
    apply calculateFrom_in_range; [cbn; lia | exact Hw].
  - apply calculateFrom_in_range; [cbn; lia | exact Hw].
  - apply calculateTo_in_range; [cbn; lia | exact Hw].
Qed.

End FilterProperties.

(** ** The histogram bar: layers, classes, errors and handlers *)

Lemma apply_aligned o b : Layers.aligned b -> Layers.aligned (Bar.apply o b).
Proof.
  unfold Layers.aligned.
  intros ((Hx1 & Hx2 & Hx3) & (Hy1 & Hy2 & Hy3) & (Hw1 & Hw2 & Hw3) & (Hh1 & Hh2) & (Hs1 & Hs2)).
  destruct o as [v | v | v | v | [v |] | v | v]; cbn;
    try (destruct (Bar._selectedHeight b); cbn);
    try (destruct (negb (Bool.eqb v (Bar._highlighted b))); cbn);
    repeat split; assumption || reflexivity.
Qed.

(** X1. After the constructor and any sequence of property writes, the
    shadow, back and foreground rects all carry the bar's [x], [y] and
    [width], the back rect carries the bar's [height], and the shadow rect
    keeps the height ["100%"] it got in the constructor. *)
Theorem layers_stay_aligned x width height ops :
  Layers.aligned (Bar.run ops (Bar.new x width height)).
Proof.
  assert (Hrun : forall b, Layers.aligned b -> Layers.aligned (Bar.run ops b)).
  { induction ops as [| o ops IH]; intros b Hb; cbn; [exact Hb |].
    apply IH, apply_aligned, Hb. }
  apply Hrun. unfold Layers.aligned. cbn. repeat split; reflexivity.
Qed.

Lemma apply_classes_ok o b : Layers.classes_ok b -> Layers.classes_ok (Bar.apply o b).
Proof.
  unfold Layers.classes_ok. intros (Hfront & Hback & Hshadow).
  destruct o as [v | v | v | v | [v |] | v | v]; cbn;
    try (repeat split; assumption).
  - destruct (Bar._selectedHeight b); cbn; repeat split; assumption.
  - destruct (Bar._highlighted b) eqn:Hh; rewrite ?Hh in Hfront;
      destruct v; cbn [negb Bool.eqb Bar.with_class Bar.attr_class];
      repeat split; assumption || reflexivity.
Qed.

(** X2. After the constructor and any sequence of property writes, the class
    of the foreground rect is the bar classes, followed by the highlighted
    class exactly when [highlighted] is [true]; the classes of the back and
    shadow rects never change. *)
Theorem classes_follow_highlighted x width height ops :
  Layers.classes_ok (Bar.run ops (Bar.new x width height)).
Proof.
  assert (Hrun : forall b, Layers.classes_ok b -> Layers.classes_ok (Bar.run ops b)).
  { induction ops as [| o ops IH]; intros b Hb; cbn; [exact Hb |].
    apply IH, apply_classes_ok, Hb. }
  apply Hrun. unfold Layers.classes_ok. cbn. repeat split; reflexivity.
Qed.

(** X3. Reading [info] raises exactly when the bar's metadata is [null] or
    an empty list; it raises on a bar that has just been constructed, and
    writes to the other properties do not change that. *)
Theorem info_raises_without_entries :
  (forall b, Bar.info b = TypeError <->
             Bar.metadata b = None \/ Bar.metadata b = Some []) /\
  (forall x width height, Bar.info (Bar.new x width height) = TypeError) /\
  (forall o b, (forall v, o <> Bar.SetMetadata v) ->
               Bar.info (Bar.apply o b) = Bar.info b).
Proof.
  split; [| split].
  - intros b. unfold Bar.info, Bar.metadata.
    destruct (Bar._metadata b) as [[| first rest] |]; cbn.
    + split; [right; reflexivity | reflexivity].
    + split; [discriminate | intros [H | H]; discriminate].
    + split; [left; reflexivity | reflexivity].
  - reflexivity.
  - intros o b Hne.
    destruct o as [v | v | v | v | [v |] | v | v]; try reflexivity.
    exfalso. apply (Hne v). reflexivity.
Qed.

Lemma writes_get slot l h :
  BarEvents.get slot (BarEvents.writes l h) =
  match BarEvents.last_write slot l with
  | Some v => v
  | None => BarEvents.get slot h
  end.
Proof.
  revert h. induction l as [| [s v] l IH]; intros h; [reflexivity |].
  cbn [BarEvents.writes fold_left]. fold (BarEvents.writes l (BarEvents.write s v h)).
  rewrite IH. unfold BarEvents.last_write. cbn [omap list_omap fst snd].
  destruct (decide (s = slot)) as [-> | Hne].
  - rewrite last_cons.
    destruct (last _); [reflexivity |].
    destruct slot, v; reflexivity.
  - destruct (last _); [reflexivity |].
    destruct s, slot, v; try reflexivity; exfalso; apply Hne; reflexivity.
Qed.

(** X4. After any sequence of writes to [onMouseEnter], [onMouseLeave] and
    [onClick], reading a property gives the value last written to it, or
    [null] if that was not a function, whatever was written to the two
    others; and the handler of each of the three events calls
    [preventDefault] and [stopPropagation] and then that one function, or
    nothing more when there is none. *)
Theorem handlers_last_write_wins slot l h :
  let current := match BarEvents.last_write slot l with
                 | Some v => v
                 | None => BarEvents.get slot h
                 end in
  BarEvents.get slot (BarEvents.writes l h) = current /\
  BarEvents.handle slot (BarEvents.writes l h) =
    [BarEvents.PreventDefault; BarEvents.StopPropagation] ++
    match current with
    | Some f => [BarEvents.Call f]
    | None => []
    end.
Proof.
  cbn zeta. rewrite <- writes_get. split; [reflexivity |].
  destruct slot; reflexivity.
Qed.

Lemma omap_cons_eq {A B} (f : A -> option B) (x : A) (l : list A) :
  omap f (x :: l) = match f x with Some y => y :: omap f l | None => omap f l end.
Proof. reflexivity. Qed.

Lemma unbind_other covers node name b other :
  other <> node ->
  BarEvents.listeners_of other (BarEvents.unbind covers node name b) =
  BarEvents.listeners_of other b.
Proof.
  intros Hne. unfold BarEvents.unbind, BarEvents.listeners_of.
  induction b as [| [[n e] l] b IH]; [reflexivity |].
  rewrite filter_cons. cbn [fst snd].
  destruct (decide (¬ (n = node ∧ covers name e = true))) as [Hkeep | Hdrop].
  - rewrite !omap_cons_eq, IH. reflexivity.
  - rewrite IH, omap_cons_eq. cbn [fst snd].
    destruct (decide (n = other)) as [-> | _]; [| reflexivity].
    exfalso. apply Hdrop. intros [Heq _]. apply Hne. exact Heq.
Qed.

(** X5. [_removeHandlers] unbinds from the foreground and the back rect
    only: the listeners of the group element are the same after it as
    before. So, whatever event types jQuery takes ["hover"] to stand for,
    the three listeners that [_addHandlers] binds to the group element are
    still bound after [_removeHandlers]. *)
Theorem removeHandlers_keeps_group_listeners covers b :
  BarEvents.listeners_of BarEvents.Group (BarEvents._removeHandlers covers b) =
    BarEvents.listeners_of BarEvents.Group b /\
  BarEvents.listeners_of BarEvents.Group
    (BarEvents._removeHandlers covers (BarEvents._addHandlers b)) =
    BarEvents.listeners_of BarEvents.Group b ++
    [("mouseenter", BarEvents.EnterListener); ("mouseleave", BarEvents.LeaveListener);
     ("click", BarEvents.ClickListener)].
Proof.
  assert (Hkeep : forall b',
    BarEvents.listeners_of BarEvents.Group (BarEvents._removeHandlers covers b') =
    BarEvents.listeners_of BarEvents.Group b').
  { intros b'. unfold BarEvents._removeHandlers.
    rewrite !unbind_other by discriminate. reflexivity. }
  split; [apply Hkeep |].
  rewrite Hkeep. unfold BarEvents._addHandlers, BarEvents.listeners_of.
  rewrite omap_app. reflexivity.
Qed.

(** ** Sessions of the range filter *)

Section SessionProperties.

Import Filter.
Import Session.

Ltac run_session :=
  cbv [bind ret throw this assign alloc load update emit deref when discard call_with
       set_barRange set_pixelRange set_onFilterChanged
       leftHandle_mousedown rightHandle_mousedown];
  cbn [fst snd heap self log].

(** The commit of a new range object [r], the last of the store [h]. *)
Lemma commit_new_after (h : list Range) (f : t) (l : list Effect) (r : Range) u :
  (_maxBarRange f < length h)%nat ->
  let w' := after (setFilterBarRange (length h) u) (mkWorld (h ++ [r]) f l) in
  heap w' = (h ++ [r]) ++ [barRangeToPixelRange (_histogram f) r] /\
  self w' = with_barRange (length h) (with_pixelRange (length (h ++ [r])) f) /\
  log w' =
    commit_effects f (h !!! _maxBarRange f) r (barRangeToPixelRange (_histogram f) r) u
    ++ l.
Proof.
  intros Hmax. cbn zeta. unfold after, commit_effects.
  rewrite setFilterBarRange_run; cbn [heap self log];
    [| rewrite length_app; cbn [length]; lia ..].
  rewrite lookup_total_snoc.
  rewrite (lookup_total_app_l h [r] (_maxBarRange f)) by assumption.
  destruct (label_entries _ _) as [[first last] |]; cbn [snd heap self log].
  - rewrite app_assoc. repeat split; reflexivity.
  - repeat split; reflexivity.
Qed.

Lemma grows_app (w w' : World) ext : heap w' = heap w ++ ext -> grows w w'.
Proof. intros Heq. unfold grows. rewrite Heq. apply take_app_length. Qed.

Lemma grows_lookup (w w' : World) (l : loc) :
  grows w w' -> (l < length (heap w))%nat -> heap w' !!! l = heap w !!! l.
Proof.
  unfold grows. intros Hgrow Hl.
  rewrite <- (lookup_total_take_lt (heap w') (length (heap w)) l) by exact Hl.
  rewrite Hgrow. reflexivity.
Qed.

(** The commit of the bar range of a new pixel range object [r], the last
    of the store [h]. *)
Lemma commit_new_pixel_after (h : list Range) (f : t) (l : list Effect) (r : Range) u :
  (_maxBarRange f < length h)%nat ->
  let w' := after (setFilterPixelRange (length h) u) (mkWorld (h ++ [r]) f l) in
  let br := pixelRangeToBarRange (_histogram f) r in
  let pr := barRangeToPixelRange (_histogram f) br in
  heap w' = ((h ++ [r]) ++ [br]) ++ [pr] /\
  self w' = with_barRange (length (h ++ [r]))
                          (with_pixelRange (length ((h ++ [r]) ++ [br])) f) /\
  log w' = commit_effects f (h !!! _maxBarRange f) br pr u ++ l.
Proof.
  intros Hmax. cbn zeta. unfold after. rewrite setFilterPixelRange_run.
  cbn [heap self log]. rewrite lookup_total_snoc.
  assert (Hmax' : (_maxBarRange f < length (h ++ [r]))%nat)
    by (rewrite length_app; cbn [length]; lia).
  pose proof (commit_new_after (h ++ [r]) f l (pixelRangeToBarRange (_histogram f) r) u Hmax')
    as Hcommit.
  cbn zeta in Hcommit. unfold after in Hcommit.
  rewrite (lookup_total_app_l h [r] (_maxBarRange f)) in Hcommit by assumption.
  exact Hcommit.
Qed.

Lemma step_to_intro w w' ext :
  well_formed w ->
  heap w' = heap w ++ ext ->
  same_config (self w) (self w') ->
  (_pixelRange (self w') < length (heap w'))%nat ->
  (_barRange (self w') < length (heap w'))%nat ->
  step_to w w'.
Proof.
  intros (Hp & Hb & Hm) Hheap Hcfg Hp' Hb'.
  split; [exact (grows_app w w' ext Hheap) | split; [exact Hcfg |]].
  destruct Hcfg as (_ & _ & Hmx).
  unfold well_formed. rewrite Hmx.
  repeat split; try assumption.
  rewrite Hheap, length_app. lia.
Qed.

Lemma step_to_refl w : well_formed w -> step_to w w.
Proof.
  intros Hwf. apply (step_to_intro w w []); try apply Hwf.
  - rewrite app_nil_r. reflexivity.
  - repeat split; reflexivity.
Qed.

Lemma stop_dragging_spec f : _spec (stop_dragging f) = _spec f.
Proof.
  unfold stop_dragging. destruct (_draggingLeft f); cbn;
    destruct (_draggingRight f); reflexivity.
Qed.

(** What the end of a drag in progress leaves behind. *)
Lemma endDragging_after clientX w :
  well_formed w ->
  _draggingLeft (self w) || _draggingRight (self w) = true ->
  let w' := after (endDragging clientX) w in
  let range := dragged (self w) (_draggingLeft (self w)) (_draggingRight (self w))
                       clientX (committed_pixelRange w) in
  let br := pixelRangeToBarRange (_histogram (self w)) range in
  let pr := barRangeToPixelRange (_histogram (self w)) br in
  heap w' = ((heap w ++ [range]) ++ [br]) ++ [pr] /\
  self w' = with_barRange (length (heap w ++ [range]))
              (with_pixelRange (length ((heap w ++ [range]) ++ [br]))
                 (stop_dragging (self w))) /\
  log w' = commit_effects (self w) (maxBarRange w) br pr true ++ PreventDefault :: log w.
Proof.
  intros (Hp & Hb & Hm) Hdrag. cbn zeta.
  unfold after at 1 2 3. rewrite endDragging_run by assumption.
  rewrite after_then_ret.
  destruct (stop_dragging_fields (self w)) as (Hcb & Hh & Hmx & _).
  pose proof (commit_new_pixel_after (heap w) (stop_dragging (self w))
                (PreventDefault :: log w)
                (dragged (self w) (_draggingLeft (self w)) (_draggingRight (self w))
                         clientX (committed_pixelRange w)) true) as Hcommit.
  cbn zeta in Hcommit. rewrite Hh, Hmx in Hcommit.
  destruct Hcommit as (Hheap & Hself & Hlog); [exact Hm |].
  split; [exact Hheap | split; [exact Hself |]].
  rewrite Hlog. unfold commit_effects, maxBarRange.
  rewrite Hh, Hcb, stop_dragging_spec. reflexivity.
Qed.

Lemma after_discard {A} (m : M A) w : after (discard m) w = after m w.
Proof. unfold discard. apply (after_then_ret m tt w). Qed.

Lemma commit_step w ext f' l' r u :
  well_formed w ->
  same_config (self w) f' ->
  let w' := after (setFilterBarRange (length (heap w ++ ext)) u)
                  (mkWorld ((heap w ++ ext) ++ [r]) f' l') in
  step_to w w' /\ flags_ok (self w') = flags_ok f'.
Proof.
  intros Hwf Hcfg. cbn zeta. pose proof Hwf as (Hp & Hb & Hm).
  pose proof Hcfg as (Hh & Hs & Hmx).
  destruct (commit_new_after (heap w ++ ext) f' l' r u) as (Hheap & Hself & _).
  { rewrite Hmx, length_app. lia. }
  split.
  - apply (step_to_intro w _ (ext ++ [r; barRangeToPixelRange (_histogram f') r])).
    + exact Hwf.
    + rewrite Hheap, <- !app_assoc. reflexivity.
    + rewrite Hself. exact Hcfg.
    + rewrite Hheap, Hself. cbn [_pixelRange with_barRange with_pixelRange].
      rewrite !length_app. cbn [length]. lia.
    + rewrite Hheap, Hself. cbn [_barRange with_barRange with_pixelRange].
      rewrite !length_app. cbn [length]. lia.
  - rewrite Hself. reflexivity.
Qed.

Lemma commit_pixel_step w f' l' r u :
  well_formed w ->
  same_config (self w) f' ->
  let w' := after (setFilterPixelRange (length (heap w)) u)
                  (mkWorld (heap w ++ [r]) f' l') in
  step_to w w' /\ flags_ok (self w') = flags_ok f'.
Proof.
  intros Hwf Hcfg. cbn zeta. unfold after. rewrite setFilterPixelRange_run.
  cbn [heap self log].
  apply (commit_step w [r] f' l' _ u Hwf Hcfg).
Qed.

Lemma flags_ok_start_dragging f : flags_ok f = true -> flags_ok (start_dragging f) = true.
Proof.
  unfold flags_ok, start_dragging.
  destruct (_canDragLeft f) eqn:Hcl, (_draggingLeft f) eqn:Hdl;
    cbn [andb negb with_draggingLeft _canDragRight _draggingRight _canDragLeft
         _draggingLeft];
    destruct (_canDragRight f) eqn:Hcr, (_draggingRight f) eqn:Hdr;
    cbn [andb negb implb with_draggingLeft with_draggingRight _canDragRight
         _draggingRight _canDragLeft _draggingLeft];
    rewrite ?Hcl, ?Hdl, ?Hcr, ?Hdr; cbn; congruence.
Qed.

Lemma flags_ok_stop_dragging f : flags_ok f = true -> flags_ok (stop_dragging f) = true.
Proof.
  unfold flags_ok, stop_dragging.
  destruct (_canDragLeft f) eqn:Hcl, (_draggingLeft f) eqn:Hdl;
    cbn [andb negb with_draggingLeft with_canDragLeft _canDragRight _draggingRight
         _canDragLeft _draggingLeft];
    destruct (_canDragRight f) eqn:Hcr, (_draggingRight f) eqn:Hdr;
    cbn [andb negb implb with_draggingLeft with_draggingRight with_canDragLeft
         with_canDragRight _canDragRight _draggingRight _canDragLeft _draggingLeft];
    rewrite ?Hcl, ?Hdl, ?Hcr, ?Hdr; cbn; congruence.
Qed.

Lemma same_config_refl f : same_config f f.
Proof. repeat split; reflexivity. Qed.

(** Every action keeps the store, the link to the histogram and the drag
    flags in order. *)
Lemma perform_step a w :
  well_formed w ->
  step_to w (after (perform a) w) /\
  (flags_ok (self w) = true -> flags_ok (self (after (perform a) w)) = true).
Proof.
  intros Hwf. pose proof Hwf as (Hp & Hb & Hm).
  assert (Hflat : forall f' l',
    same_config (self w) f' ->
    _pixelRange f' = _pixelRange (self w) -> _barRange f' = _barRange (self w) ->
    step_to w (mkWorld (heap w) f' l')).
  { intros f' l' Hcfg Hp' Hb'. apply (step_to_intro w _ []); cbn [heap self];
      [exact Hwf | rewrite app_nil_r; reflexivity | exact Hcfg | lia | lia]. }
  assert (Hcommit : forall r u,
    let w' := after (setFilterBarRange (length (heap w)) u)
                    (mkWorld (heap w ++ [r]) (self w) (log w)) in
    step_to w w' /\ (flags_ok (self w) = true -> flags_ok (self w') = true)).
  { intros r u. cbn zeta.
    pose proof (commit_step w [] (self w) (log w) r u Hwf (same_config_refl _)) as Hstep.
    cbn zeta in Hstep. rewrite app_nil_r in Hstep.
    destruct Hstep as [Hstep Hflags]. split; [exact Hstep | congruence]. }
  assert (Hcommit_pixel : forall r u,
    let w' := after (setFilterPixelRange (length (heap w)) u)
                    (mkWorld (heap w ++ [r]) (self w) (log w)) in
    step_to w w' /\ (flags_ok (self w) = true -> flags_ok (self w') = true)).
  { intros r u. cbn zeta.
    destruct (commit_pixel_step w (self w) (log w) r u Hwf (same_config_refl _))
      as [Hstep Hflags].
    split; [exact Hstep | congruence]. }
  destruct a as [[x | x | x | x | x | |] | v | v | v | r u | r u]; cbn [perform handle].
  - rewrite after_discard. unfold after. run_session.
    split; [apply Hflat; repeat split; reflexivity |].
    unfold flags_ok; cbn.
    destruct (_draggingLeft (self w)), (_canDragLeft (self w)),
             (_draggingRight (self w)), (_canDragRight (self w)); cbn; congruence.
  - rewrite after_discard. unfold after. run_session.
    split; [apply Hflat; repeat split; reflexivity |].
    unfold flags_ok; cbn.
    destruct (_draggingLeft (self w)), (_canDragLeft (self w)),
             (_draggingRight (self w)), (_canDragRight (self w)); cbn; congruence.
  - destruct (_canDragLeft (self w) || _canDragRight (self w)) eqn:Harmed.
    + destruct (mousemove_after x w Hwf Harmed) as (Hheap & Hself & _).
      destruct (start_dragging_fields (self w)) as (Hh & Hs & Hmx & Hpr & Hbr).
      split.
      * eapply (step_to_intro w _ [_; _]); [exact Hwf | | | |].
        -- rewrite Hheap, <- app_assoc. reflexivity.
        -- rewrite Hself. repeat split; assumption.
        -- rewrite Hheap, Hself, Hpr, !length_app. lia.
        -- rewrite Hheap, Hself, Hbr, !length_app. lia.
      * rewrite Hself. apply flags_ok_start_dragging.
    + unfold after. rewrite mousemove_idle by assumption. cbn [snd].
      split; [apply step_to_refl, Hwf | tauto].
  - rewrite after_discard.
    destruct (_draggingLeft (self w) || _draggingRight (self w)) eqn:Hdrag.
    + unfold after. rewrite endDragging_run by assumption. rewrite after_then_ret.
      destruct (stop_dragging_fields (self w)) as (_ & Hh & Hmx & _).
      destruct (commit_pixel_step w (stop_dragging (self w)) (PreventDefault :: log w)
                  (dragged (self w) (_draggingLeft (self w)) (_draggingRight (self w)) x
                           (committed_pixelRange w)) true Hwf) as [Hstep Hflags].
      { repeat split; [exact Hh | apply stop_dragging_spec | exact Hmx]. }
      split; [exact Hstep |].
      intros Hok. rewrite Hflags. apply flags_ok_stop_dragging, Hok.
    + unfold after. rewrite endDragging_idle by assumption. cbn [snd].
      split; [apply step_to_refl, Hwf | tauto].
  - rewrite after_discard.
    destruct (_draggingLeft (self w) || _draggingRight (self w)) eqn:Hdrag.
    + unfold after. rewrite endDragging_run by assumption. rewrite after_then_ret.
      destruct (stop_dragging_fields (self w)) as (_ & Hh & Hmx & _).
      destruct (commit_pixel_step w (stop_dragging (self w)) (PreventDefault :: log w)
                  (dragged (self w) (_draggingLeft (self w)) (_draggingRight (self w)) x
                           (committed_pixelRange w)) true Hwf) as [Hstep Hflags].
      { repeat split; [exact Hh | apply stop_dragging_spec | exact Hmx]. }
      split; [exact Hstep |].
      intros Hok. rewrite Hflags. apply flags_ok_stop_dragging, Hok.
    + unfold after. rewrite endDragging_idle by assumption. cbn [snd].
      split; [apply step_to_refl, Hwf | tauto].
  - unfold after at 1 2. rewrite pageLeft_click_run.
    destruct (_ >? _); [apply Hcommit |].
    cbn [snd]. split; [apply step_to_refl, Hwf | tauto].
  - unfold after at 1 2. rewrite pageRight_click_run.
    destruct (_ <? _); [apply Hcommit |].
    cbn [snd]. split; [apply step_to_refl, Hwf | tauto].
  - apply (Hcommit v false).
  - apply (Hcommit_pixel v false).
  - unfold after. destruct v; run_session;
      (split; [apply Hflat; repeat split; reflexivity | tauto]).
  - apply (Hcommit r u).
  - apply (Hcommit_pixel r u).
Qed.

Lemma grows_length w w' : grows w w' -> (length (heap w) <= length (heap w'))%nat.
Proof.
  unfold grows. intros Hgrow.
  assert (Hlen : length (take (length (heap w)) (heap w')) = length (heap w))
    by (rewrite Hgrow; reflexivity).
  rewrite length_take in Hlen. lia.
Qed.

Lemma grows_trans w1 w2 w3 : grows w1 w2 -> grows w2 w3 -> grows w1 w3.
Proof.
  intros H12 H23. pose proof (grows_length w1 w2 H12) as Hlen.
  unfold grows in *.
  transitivity (take (length (heap w1)) (take (length (heap w2)) (heap w3))).
  - rewrite take_take. f_equal. lia.
  - rewrite H23. exact H12.
Qed.

Lemma step_to_trans w1 w2 w3 : step_to w1 w2 -> step_to w2 w3 -> step_to w1 w3.
Proof.
  intros (Hg12 & (Hh12 & Hs12 & Hm12) & _) (Hg23 & (Hh23 & Hs23 & Hm23) & Hwf).
  split; [exact (grows_trans w1 w2 w3 Hg12 Hg23) |].
  split; [| exact Hwf].
  repeat split; congruence.
Qed.

Lemma step_to_maxBarRange w w' : well_formed w -> step_to w w' -> maxBarRange w' = maxBarRange w.
Proof.
  intros (_ & _ & Hm) (Hgrow & (_ & _ & Hmx) & _).
  unfold maxBarRange. rewrite Hmx. apply grows_lookup; assumption.
Qed.

(** A sequence of actions keeps what each action keeps. *)
Lemma play_step actions w :
  well_formed w ->
  step_to w (play actions w) /\
  (flags_ok (self w) = true -> flags_ok (self (play actions w)) = true).
Proof.
  revert w. induction actions as [| a actions IH]; intros w Hwf; cbn [play fold_left].
  - split; [apply step_to_refl, Hwf | tauto].
  - destruct (perform_step a w Hwf) as [Hstep Hflags].
    pose proof Hstep as (_ & _ & Hwf1).
    destruct (IH _ Hwf1) as [Hsteps Hflagss].
    split; [exact (step_to_trans _ _ _ Hstep Hsteps) | tauto].
Qed.

Lemma new_well_formed h spec : well_formed (new h spec).
Proof. unfold well_formed, new; cbn. lia. Qed.

(** X6. In every state a filter reaches from its constructor, by any
    sequence of events, property writes and calls of [setFilterBarRange]
    and [setFilterPixelRange], a handle that is being dragged is armed, the
    filter is linked to the histogram and the display options it was
    constructed with, and the widest range is still from bar [0] to the
    last bar. *)
Theorem session_invariants h spec actions :
  let w := play actions (new h spec) in
  flags_ok (self w) = true /\
  _histogram (self w) = h /\
  _spec (self w) = spec /\
  maxBarRange w = {| from := 0; to := Z.of_nat (length (bars h)) - 1 |} /\
  well_formed w.
Proof.
  cbn zeta. pose proof (new_well_formed h spec) as Hwf.
  destruct (play_step actions (new h spec) Hwf) as [Hstep Hflags].
  pose proof (step_to_maxBarRange _ _ Hwf Hstep) as Hmax.
  destruct Hstep as (_ & (Hh & Hs & _) & Hwf').
  split; [apply Hflags; reflexivity |].
  split; [rewrite Hh; reflexivity |].
  split; [rewrite Hs; reflexivity |].
  split; [rewrite Hmax; reflexivity | exact Hwf'].
Qed.

(** X7. No action changes a range object that exists: in every state reached
    from the constructor, whatever happens next, each range object has the
    contents it had, among them the objects the [barRange] and
    [pixelRange] getters returned and the ones passed to the callback.
    The handlers write only to the copies they make. *)
Theorem ranges_never_mutated h spec before later :
  let w := play before (new h spec) in
  let w' := play later w in
  grows w w' /\
  (forall l : loc, (l < length (heap w))%nat -> heap w' !!! l = heap w !!! l).
Proof.
  cbn zeta.
  destruct (play_step before (new h spec) (new_well_formed h spec)) as [(_ & _ & Hwf) _].
  destruct (play_step later _ Hwf) as [(Hgrow & _) _].
  split; [exact Hgrow |].
  intros l Hl. apply grows_lookup; assumption.
Qed.

Lemma notifications_commit_effects f mx r pr u :
  notifications (commit_effects f mx r pr u) = commit_notifications f r u.
Proof.
  unfold commit_effects, commit_notifications.
  destruct (displayable (bars (_histogram f)) r) eqn:Hd.
  - apply label_entries_is_Some in Hd. destruct Hd as [[first last] ->].
    rewrite notifications_app, notifications_ui_effects, app_nil_r.
    destruct (_onFilterChanged f); reflexivity.
  - apply label_entries_None in Hd. rewrite Hd. reflexivity.
Qed.

Lemma commit_new_committed (h : list Range) (f : t) (l : list Effect) (r : Range) u :
  (_maxBarRange f < length h)%nat ->
  let w' := after (setFilterBarRange (length h) u) (mkWorld (h ++ [r]) f l) in
  committed_barRange w' = r /\
  committed_pixelRange w' = barRangeToPixelRange (_histogram f) r /\
  _onFilterChanged (self w') = _onFilterChanged f /\
  notifications (log w') = commit_notifications f r u ++ notifications l.
Proof.
  intros Hmax. cbn zeta.
  destruct (commit_new_after h f l r u Hmax) as (Hheap & Hself & Hlog).
  unfold committed_barRange, committed_pixelRange.
  rewrite Hheap, Hself, Hlog.
  cbn [_barRange _pixelRange _onFilterChanged with_barRange with_pixelRange].
  rewrite lookup_total_snoc.
  rewrite (lookup_total_app_l (h ++ [r])) by (rewrite length_app; cbn [length]; lia).
  rewrite lookup_total_snoc, notifications_app, notifications_commit_effects.
  repeat split; reflexivity.
Qed.

Lemma commit_new_pixel_committed (h : list Range) (f : t) (l : list Effect) (r : Range) u :
  (_maxBarRange f < length h)%nat ->
  let w' := after (setFilterPixelRange (length h) u) (mkWorld (h ++ [r]) f l) in
  let br := pixelRangeToBarRange (_histogram f) r in
  committed_barRange w' = br /\
  committed_pixelRange w' = barRangeToPixelRange (_histogram f) br /\
  _onFilterChanged (self w') = _onFilterChanged f /\
  notifications (log w') = commit_notifications f br u ++ notifications l.
Proof.
  intros Hmax. cbn zeta. unfold after. rewrite setFilterPixelRange_run.
  cbn [heap self log]. rewrite lookup_total_snoc.
  apply (commit_new_committed (h ++ [r]) f l).
  rewrite length_app. lia.
Qed.

Lemma endDragging_committed clientX w :
  well_formed w ->
  _draggingLeft (self w) || _draggingRight (self w) = true ->
  let w' := after (endDragging clientX) w in
  let br := pixelRangeToBarRange (_histogram (self w))
              (dragged (self w) (_draggingLeft (self w)) (_draggingRight (self w))
                       clientX (committed_pixelRange w)) in
  committed_barRange w' = br /\
  committed_pixelRange w' = barRangeToPixelRange (_histogram (self w)) br /\
  self w' = with_barRange (_barRange (self w')) (with_pixelRange (_pixelRange (self w'))
                                                   (stop_dragging (self w))) /\
  notifications (log w') = commit_notifications (self w) br true ++ notifications (log w).
Proof.
  intros Hwf Hdrag. cbn zeta. pose proof Hwf as (_ & _ & Hm).
  destruct (endDragging_after clientX w Hwf Hdrag) as (_ & Hself & _).
  split; [| split; [| split; [rewrite Hself; reflexivity |]]].
  all: unfold after; rewrite endDragging_run by assumption; rewrite after_then_ret.
  all: destruct (stop_dragging_fields (self w)) as (Hcb & Hh & Hmx & _).
  all: destruct (commit_new_pixel_committed (heap w) (stop_dragging (self w))
                   (PreventDefault :: log w)
                   (dragged (self w) (_draggingLeft (self w)) (_draggingRight (self w))
                            clientX (committed_pixelRange w)) true)
         as (Hbr & Hpr & _ & Hnote); [rewrite Hmx; exact Hm | ].
  - rewrite Hbr, Hh. reflexivity.
  - rewrite Hpr, Hh. reflexivity.
  - rewrite Hnote. unfold commit_notifications. rewrite Hh, Hcb. reflexivity.
Qed.

(** The calls of the callback one action makes. *)
Lemma perform_notifications a w :
  well_formed w ->
  let w' := after (perform a) w in
  exists ns,
    notifications (log w') = ns ++ notifications (log w) /\
    (ns = [] \/
     exists handler u,
       _onFilterChanged (self w) = Some handler /\
       ns = [(handler, committed_barRange w', u)]).
Proof.
  intros Hwf. cbn zeta. pose proof Hwf as (Hp & Hb & Hm).
  assert (Hshape : forall f r u,
    commit_notifications f r u = [] \/
    exists handler u', _onFilterChanged f = Some handler /\
                       commit_notifications f r u = [(handler, r, u')]).
  { intros f r u. unfold commit_notifications.
    destruct (displayable _ _); [| left; reflexivity].
    destruct (_onFilterChanged f) as [handler |]; [| left; reflexivity].
    right. exists handler, u. split; reflexivity. }
  assert (Hcommit : forall r u,
    let w' := after (setFilterBarRange (length (heap w)) u)
                    (mkWorld (heap w ++ [r]) (self w) (log w)) in
    exists ns,
      notifications (log w') = ns ++ notifications (log w) /\
      (ns = [] \/ exists handler u', _onFilterChanged (self w) = Some handler /\
                                     ns = [(handler, committed_barRange w', u')])).
  { intros r u. cbn zeta.
    destruct (commit_new_committed (heap w) (self w) (log w) r u Hm) as (Hbr & _ & _ & Hn).
    exists (commit_notifications (self w) r u). split; [exact Hn |].
    rewrite Hbr. apply Hshape. }
  assert (Hcommit_pixel : forall r u,
    let w' := after (setFilterPixelRange (length (heap w)) u)
                    (mkWorld (heap w ++ [r]) (self w) (log w)) in
    exists ns,
      notifications (log w') = ns ++ notifications (log w) /\
      (ns = [] \/ exists handler u', _onFilterChanged (self w) = Some handler /\
                                     ns = [(handler, committed_barRange w', u')])).
  { intros r u. cbn zeta.
    destruct (commit_new_pixel_committed (heap w) (self w) (log w) r u Hm)
      as (Hbr & _ & _ & Hn).
    eexists. split; [exact Hn |]. rewrite Hbr. apply Hshape. }
  assert (Hup : forall x,
    exists ns,
      notifications (log (after (endDragging x) w)) = ns ++ notifications (log w) /\
      (ns = [] \/ exists handler u', _onFilterChanged (self w) = Some handler /\
         ns = [(handler, committed_barRange (after (endDragging x) w), u')])).
  { intros x. destruct (_draggingLeft (self w) || _draggingRight (self w)) eqn:Hdrag.
    - destruct (endDragging_committed x w Hwf Hdrag) as (Hbr & _ & _ & Hn).
      eexists. split; [exact Hn |]. rewrite Hbr. apply Hshape.
    - unfold after. rewrite endDragging_idle by assumption.
      exists []. split; [reflexivity | left; reflexivity]. }
  destruct a as [[x | x | x | x | x | |] | v | v | v | r u | r u]; cbn [perform handle].
  - exists []. split; [reflexivity | left; reflexivity].
  - exists []. split; [reflexivity | left; reflexivity].
  - exists []. split; [| left; reflexivity].
    destruct (_canDragLeft (self w) || _canDragRight (self w)) eqn:Harmed.
    + destruct (mousemove_after x w Hwf Harmed) as (_ & _ & Hlog).
      rewrite Hlog, notifications_app.
      destruct (label_entries _ _) as [[first last] |]; reflexivity.
    + unfold after. rewrite mousemove_idle by assumption. reflexivity.
  - rewrite after_discard. apply Hup.
  - rewrite after_discard. apply Hup.
  - unfold after. rewrite pageLeft_click_run.
    destruct (_ >? _); [apply Hcommit |].
    exists []. split; [reflexivity | left; reflexivity].
  - unfold after. rewrite pageRight_click_run.
    destruct (_ <? _); [apply Hcommit |].
    exists []. split; [reflexivity | left; reflexivity].
  - apply (Hcommit v false).
  - apply (Hcommit_pixel v false).
  - exists []. split; [| left; reflexivity]. destruct v; reflexivity.
  - apply (Hcommit r u).
  - apply (Hcommit_pixel r u).
Qed.

(** X8. In every state reached from the constructor, one action calls the
    callback at most once; when it does, the function called is the one
    registered before the action and the bar range passed is the one that
    is committed after it. *)
Theorem action_notifies_at_most_once h spec actions a :
  let w := play actions (new h spec) in
  let w' := after (perform a) w in
  exists ns,
    notifications (log w') = ns ++ notifications (log w) /\
    (ns = [] \/
     exists handler u,
       _onFilterChanged (self w) = Some handler /\
       ns = [(handler, committed_barRange w', u)]).
Proof.
  cbn zeta. apply perform_notifications.
  apply (play_step actions (new h spec) (new_well_formed h spec)).
Qed.

(** What a page click leaves behind. *)
Lemma page_clicks_after w :
  well_formed w ->
  (let w' := after pageLeft_click w in
   committed_barRange w' =
     (if from (committed_barRange w) >? from (maxBarRange w)
      then page_left (maxBarRange w) (committed_barRange w)
      else committed_barRange w) /\
   maxBarRange w' = maxBarRange w /\ well_formed w') /\
  (let w' := after pageRight_click w in
   committed_barRange w' =
     (if to (committed_barRange w) <? to (maxBarRange w)
      then page_right (maxBarRange w) (committed_barRange w)
      else committed_barRange w) /\
   maxBarRange w' = maxBarRange w /\ well_formed w').
Proof.
  intros Hwf. pose proof Hwf as (_ & _ & Hm). cbn zeta. split.
  - destruct (perform_step (UI PageLeftClick) w Hwf) as [Hstep _].
    cbn [perform handle] in Hstep.
    split; [| split; [apply step_to_maxBarRange; assumption | apply Hstep]].
    unfold after. rewrite pageLeft_click_run.
    destruct (_ >? _); [| reflexivity].
    apply (commit_new_committed (heap w) (self w) (log w) _ true Hm).
  - destruct (perform_step (UI PageRightClick) w Hwf) as [Hstep _].
    cbn [perform handle] in Hstep.
    split; [| split; [apply step_to_maxBarRange; assumption | apply Hstep]].
    unfold after. rewrite pageRight_click_run.
    destruct (_ <? _); [| reflexivity].
    apply (commit_new_committed (heap w) (self w) (log w) _ true Hm).
Qed.

(** X9. A page click never takes the selection out of the widest range and
    never changes its width: from a committed bar range with
    [maxFrom <= from <= to <= maxTo], after a click on "page left" or on
    "page right" the committed bar range satisfies the same and spans as
    many bars as before. *)
Theorem pagination_stays_within (e : Event) w :
  well_formed w ->
  within (maxBarRange w) (committed_barRange w) ->
  e = PageLeftClick \/ e = PageRightClick ->
  let w' := after (handle e) w in
  within (maxBarRange w') (committed_barRange w') /\
  to (committed_barRange w') - from (committed_barRange w') =
    to (committed_barRange w) - from (committed_barRange w).
Proof.
  intros Hwf (Hlo & Hmid & Hhi) He. cbn zeta.
  destruct (page_clicks_after w Hwf) as [(Hl & Hlmax & _) (Hr & Hrmax & _)].
  unfold within.
  destruct He as [-> | ->]; cbn [handle].
  - rewrite Hlmax, Hl.
    destruct (Z.gtb_spec (from (committed_barRange w)) (from (maxBarRange w)));
      unfold page_left; cbn [from to]; lia.
  - rewrite Hrmax, Hr.
    destruct (Z.ltb_spec (to (committed_barRange w)) (to (maxBarRange w)));
      unfold page_right; cbn [from to]; lia.
Qed.

Lemma pagination_stays_within_witness :
  let w := Fixtures.committed Fixtures.ten_bars (mkRange 6 8) in
  let w' := after (handle PageRightClick) w in
  well_formed w /\
  within (maxBarRange w) (committed_barRange w) /\
  within (maxBarRange w') (committed_barRange w') /\
  to (committed_barRange w') - from (committed_barRange w') = 2.
Proof.
  intros w w'.
  assert (Hwf : well_formed w) by (unfold well_formed; vm_compute; lia).
  assert (Hin : within (maxBarRange w) (committed_barRange w))
    by (unfold within; vm_compute; repeat split; discriminate).
  split; [exact Hwf | split; [exact Hin |]].
  apply (pagination_stays_within PageRightClick w Hwf Hin). right. reflexivity.
Defined.

(** X10. Paging back restores the selection when a full page fits: if the
    window can move left by its whole width without passing the left
    boundary, "page left" followed by "page right" commits the bar range
    there was before; likewise "page right" followed by "page left" when
    a full page fits on the right. *)
Theorem page_there_and_back w :
  well_formed w ->
  within (maxBarRange w) (committed_barRange w) ->
  let br := committed_barRange w in
  let width := to br - from br + 1 in
  (from (maxBarRange w) <= from br - width ->
   committed_barRange (dispatch [PageLeftClick; PageRightClick] w) = br) /\
  (to br + width <= to (maxBarRange w) ->
   committed_barRange (dispatch [PageRightClick; PageLeftClick] w) = br).
Proof.
  intros Hwf (Hlo & Hmid & Hhi). cbn zeta. cbn [dispatch fold_left handle].
  destruct (page_clicks_after w Hwf) as [(Hl & Hlmax & Hlwf) (Hr & Hrmax & Hrwf)].
  destruct (page_clicks_after _ Hlwf) as [_ (Hlr & _)].
  destruct (page_clicks_after _ Hrwf) as [(Hrl & _) _].
  destruct (committed_barRange w) as [a b] eqn:Hbr.
  destruct (maxBarRange w) as [lo hi] eqn:Hmx.
  cbn [from to] in *. split; intros Hfits.
  - rewrite Hlr, Hlmax, Hl. unfold page_left, page_right. cbn [from to].
    destruct (Z.gtb_spec a lo); [| lia]. cbn [from to].
    destruct (Z.ltb_spec (Z.max lo (a - (b - a + 1)) + (b - a)) hi); [| lia].
    cbn [from to]. f_equal; lia.
  - rewrite Hrl, Hrmax, Hr. unfold page_left, page_right. cbn [from to].
    destruct (Z.ltb_spec b hi); [| lia]. cbn [from to].
    destruct (Z.gtb_spec (Z.min hi (b + (b - a + 1)) - (b - a)) lo); [| lia].
    cbn [from to]. f_equal; lia.
Qed.

Lemma page_there_and_back_witness :
  let w := Fixtures.committed Fixtures.ten_bars (mkRange 4 6) in
  well_formed w /\
  within (maxBarRange w) (committed_barRange w) /\
  committed_barRange (dispatch [PageLeftClick; PageRightClick] w) = mkRange 4 6 /\
  committed_barRange (dispatch [PageRightClick; PageLeftClick] w) = mkRange 4 6.
Proof.
  intros w.
  assert (Hwf : well_formed w) by (unfold well_formed; vm_compute; lia).
  assert (Hin : within (maxBarRange w) (committed_barRange w))
    by (unfold within; vm_compute; repeat split; discriminate).
  split; [exact Hwf | split; [exact Hin |]].
  destruct (page_there_and_back w Hwf Hin) as [Hleft Hright].
  split; [apply Hleft | apply Hright]; vm_compute; discriminate.
Defined.

Lemma page_right_reaches n : forall w,
  well_formed w ->
  within (maxBarRange w) (committed_barRange w) ->
  to (maxBarRange w) - to (committed_barRange w) <= Z.of_nat n ->
  let w' := dispatch (replicate n PageRightClick) w in
  to (committed_barRange w') = to (maxBarRange w) /\ maxBarRange w' = maxBarRange w.
Proof.
  induction n as [| n IH]; intros w Hwf (Hlo & Hmid & Hhi) Hn;
    cbn [replicate dispatch fold_left handle].
  - split; [lia | reflexivity].
  - destruct (page_clicks_after w Hwf) as [_ (Hr & Hrmax & Hrwf)].
    assert (Hstep : within (maxBarRange (after pageRight_click w))
                           (committed_barRange (after pageRight_click w)) /\
                    to (maxBarRange (after pageRight_click w)) -
                    to (committed_barRange (after pageRight_click w)) <= Z.of_nat n).
    { rewrite Hrmax, Hr. unfold within.
      destruct (Z.ltb_spec (to (committed_barRange w)) (to (maxBarRange w)));
        unfold page_right; cbn [from to]; lia. }
    destruct Hstep as [Hin Hn'].
    destruct (IH _ Hrwf Hin Hn') as [Hto Hmax].
    fold (dispatch (replicate n PageRightClick) (after pageRight_click w)).
    rewrite Hto, Hmax, Hrmax. split; reflexivity.
Qed.

Lemma page_left_reaches n : forall w,
  well_formed w ->
  within (maxBarRange w) (committed_barRange w) ->
  from (committed_barRange w) - from (maxBarRange w) <= Z.of_nat n ->
  let w' := dispatch (replicate n PageLeftClick) w in
  from (committed_barRange w') = from (maxBarRange w) /\ maxBarRange w' = maxBarRange w.
Proof.
  induction n as [| n IH]; intros w Hwf (Hlo & Hmid & Hhi) Hn;
    cbn [replicate dispatch fold_left handle].
  - split; [lia | reflexivity].
  - destruct (page_clicks_after w Hwf) as [(Hl & Hlmax & Hlwf) _].
    assert (Hstep : within (maxBarRange (after pageLeft_click w))
                           (committed_barRange (after pageLeft_click w)) /\
                    from (committed_barRange (after pageLeft_click w)) -
                    from (maxBarRange (after pageLeft_click w)) <= Z.of_nat n).
    { rewrite Hlmax, Hl. unfold within.
      destruct (Z.gtb_spec (from (committed_barRange w)) (from (maxBarRange w)));
        unfold page_left; cbn [from to]; lia. }
    destruct Hstep as [Hin Hn'].
    destruct (IH _ Hlwf Hin Hn') as [Hfrom Hmax].
    fold (dispatch (replicate n PageLeftClick) (after pageLeft_click w)).
    rewrite Hfrom, Hmax, Hlmax. split; reflexivity.
Qed.

(** X11. Paging makes progress: every click away from the boundary moves
    the window by at least one bar, so after as many clicks on "page right"
    as there are bars between [to] and the last bar the committed range
    ends at the last bar, and after as many clicks on "page left" as there
    are bars between the first bar and [from] it starts at the first bar.
    More clicks change nothing. *)
Theorem paging_reaches_boundary w n :
  well_formed w ->
  within (maxBarRange w) (committed_barRange w) ->
  (to (maxBarRange w) - to (committed_barRange w) <= Z.of_nat n ->
   to (committed_barRange (dispatch (replicate n PageRightClick) w)) = to (maxBarRange w)) /\
  (from (committed_barRange w) - from (maxBarRange w) <= Z.of_nat n ->
   from (committed_barRange (dispatch (replicate n PageLeftClick) w)) =
     from (maxBarRange w)).
Proof.
  intros Hwf Hin. split; intros Hn.
  - apply (page_right_reaches n w Hwf Hin Hn).
  - apply (page_left_reaches n w Hwf Hin Hn).
Qed.

Lemma paging_reaches_boundary_witness :
  let w := Fixtures.committed Fixtures.ten_bars (mkRange 2 4) in
  well_formed w /\
  within (maxBarRange w) (committed_barRange w) /\
  to (committed_barRange (dispatch (replicate 5 PageRightClick) w)) = 9 /\
  from (committed_barRange (dispatch (replicate 2 PageLeftClick) w)) = 0.
Proof.
  intros w.
  assert (Hwf : well_formed w) by (unfold well_formed; vm_compute; lia).
  assert (Hin : within (maxBarRange w) (committed_barRange w))
    by (unfold within; vm_compute; repeat split; discriminate).
  split; [exact Hwf | split; [exact Hin |]].
  destruct (paging_reaches_boundary w 5 Hwf Hin) as [Hright _].
  destruct (paging_reaches_boundary w 2 Hwf Hin) as [_ Hleft].
  split; [apply Hright | apply Hleft]; vm_compute; discriminate.
Defined.

Ltac flag_cases f :=
  let Hcl := fresh "Hcl" in
  let Hdl := fresh "Hdl" in
  let Hcr := fresh "Hcr" in
  let Hdr := fresh "Hdr" in
  destruct (_canDragLeft f) eqn:Hcl, (_draggingLeft f) eqn:Hdl,
           (_canDragRight f) eqn:Hcr, (_draggingRight f) eqn:Hdr;
  cbn; repeat (progress (rewrite ?Hcl, ?Hdl, ?Hcr, ?Hdr; cbn)).

Lemma start_dragging_more f :
  _canDragLeft (start_dragging f) = _canDragLeft f /\
  _canDragRight (start_dragging f) = _canDragRight f /\
  _draggingLeftX (start_dragging f) = _draggingLeftX f /\
  _draggingRightX (start_dragging f) = _draggingRightX f /\
  _onFilterChanged (start_dragging f) = _onFilterChanged f /\
  start_dragging (start_dragging f) = start_dragging f.
Proof.
  unfold start_dragging. flag_cases f; repeat split; reflexivity.
Qed.

Lemma start_dragging_flags f :
  flags_ok f = true ->
  _draggingLeft (start_dragging f) = _canDragLeft f /\
  _draggingRight (start_dragging f) = _canDragRight f /\
  idle (stop_dragging (start_dragging f)) = true.
Proof.
  unfold flags_ok, idle, start_dragging, stop_dragging.
  flag_cases f; intros; repeat split; congruence.
Qed.

Lemma dragged_config f f' left right x pr :
  _histogram f' = _histogram f ->
  _draggingLeftX f' = _draggingLeftX f ->
  _draggingRightX f' = _draggingRightX f ->
  dragged f' left right x pr = dragged f left right x pr.
Proof. intros Hh Hl Hr. unfold dragged. rewrite Hh, Hl, Hr. reflexivity. Qed.

(** A run of pointer-moves with a handle armed: the flags are those after the
    first move, and nothing is committed or notified. *)
Lemma moves_after xs : forall w,
  well_formed w ->
  _canDragLeft (self w) || _canDragRight (self w) = true ->
  let w1 := dispatch (map MouseMove xs) w in
  well_formed w1 /\
  self w1 = match xs with [] => self w | _ => start_dragging (self w) end /\
  committed_pixelRange w1 = committed_pixelRange w /\
  maxBarRange w1 = maxBarRange w /\
  notifications (log w1) = notifications (log w).
Proof.
  induction xs as [| x xs IH]; intros w Hwf Harmed; cbn [map dispatch fold_left handle].
  - split; [exact Hwf | repeat split; reflexivity].
  - fold (dispatch (map MouseMove xs) (after (mousemove x) w)).
    destruct (perform_step (UI (MouseMove x)) w Hwf) as [Hstep _].
    cbn [perform handle] in Hstep.
    pose proof (step_to_maxBarRange _ _ Hwf Hstep) as Hmax.
    destruct Hstep as (_ & _ & Hwf0).
    destruct (mousemove_after x w Hwf Harmed) as (_ & Hself & Hlog).
    destruct (mousemove_same_commit x w Hwf) as (_ & _ & _ & Hpr & _).
    destruct (start_dragging_more (self w)) as (Hcl & Hcr & _ & _ & _ & Hidem).
    destruct (IH (after (mousemove x) w) Hwf0) as (Hwf1 & Hself1 & Hpr1 & Hmax1 & Hn1).
    { rewrite Hself, Hcl, Hcr. exact Harmed. }
    split; [exact Hwf1 |].
    split; [rewrite Hself1, Hself; destruct xs; [reflexivity | exact Hidem] |].
    split; [rewrite Hpr1; exact Hpr |].
    split; [rewrite Hmax1; exact Hmax |].
    rewrite Hn1, Hlog, notifications_app.
    destruct (label_entries _ _) as [[first last] |]; reflexivity.
Qed.

(** A whole drag: at least one pointer-move with a handle armed, then the
    release at [x]. *)
Lemma gesture_after x1 xs x w :
  well_formed w ->
  flags_ok (self w) = true ->
  _canDragLeft (self w) || _canDragRight (self w) = true ->
  let w' := after (endDragging x) (dispatch (map MouseMove (x1 :: xs)) w) in
  let br := pixelRangeToBarRange (_histogram (self w))
              (dragged (self w) (_canDragLeft (self w)) (_canDragRight (self w)) x
                       (committed_pixelRange w)) in
  committed_barRange w' = br /\
  committed_pixelRange w' = barRangeToPixelRange (_histogram (self w)) br /\
  idle (self w') = true /\
  notifications (log w') = commit_notifications (self w) br true ++ notifications (log w).
Proof.
  intros Hwf Hflags Harmed. cbn zeta.
  destruct (moves_after (x1 :: xs) w Hwf Harmed) as (Hwf1 & Hself1 & Hpr1 & _ & Hn1).
  set (w1 := dispatch (map MouseMove (x1 :: xs)) w) in *.
  destruct (start_dragging_flags (self w) Hflags) as (Hdl & Hdr & Hidle).
  destruct (start_dragging_more (self w)) as (_ & _ & Hlx & Hrx & Hcb & _).
  destruct (start_dragging_fields (self w)) as (Hh & _ & _ & _ & _).
  assert (Hdrag : _draggingLeft (self w1) || _draggingRight (self w1) = true)
    by (rewrite Hself1, Hdl, Hdr; exact Harmed).
  destruct (endDragging_committed x w1 Hwf1 Hdrag) as (Hbr & Hpr & Hself & Hn).
  rewrite Hself1, Hdl, Hdr, Hh, Hpr1 in Hbr, Hpr, Hn.
  rewrite (dragged_config (self w) (start_dragging (self w))) in Hbr, Hpr, Hn
    by assumption.
  split; [exact Hbr | split; [exact Hpr | split]].
  - rewrite Hself, Hself1. exact Hidle.
  - rewrite Hn, Hn1. unfold commit_notifications. rewrite Hh, Hcb. reflexivity.
Qed.

Lemma dispatch_snoc es e w : dispatch (es ++ [e]) w = after (handle e) (dispatch es w).
Proof. unfold dispatch. rewrite fold_left_app. reflexivity. Qed.

(** X12. A drag commits the position of the release and nothing else: with
    a handle armed, after one or more pointer-moves and then pointer-up or
    pointer-leave at [x], the committed bar range is the conversion of the
    range computed from the pixel range committed before the drag, the
    anchor of the handle and [x]; the positions of the moves in between
    play no part. The committed pixel range is the conversion back of that
    bar range, the callback is called once (if the range can be displayed)
    with [fromUserInput = true], and no handle is left armed or dragging. *)
Theorem drag_commits_release_position (x1 : Z) (xs : list Z) (x : Z) (up : Event) w :
  well_formed w ->
  flags_ok (self w) = true ->
  _canDragLeft (self w) || _canDragRight (self w) = true ->
  up = MouseUp x \/ up = MouseLeave x ->
  let w' := dispatch (map MouseMove (x1 :: xs) ++ [up]) w in
  let br := pixelRangeToBarRange (_histogram (self w))
              (dragged (self w) (_canDragLeft (self w)) (_canDragRight (self w)) x
                       (committed_pixelRange w)) in
  committed_barRange w' = br /\
  committed_pixelRange w' = barRangeToPixelRange (_histogram (self w)) br /\
  idle (self w') = true /\
  notifications (log w') = commit_notifications (self w) br true ++ notifications (log w).
Proof.
  intros Hwf Hflags Harmed Hup. cbn zeta. rewrite dispatch_snoc.
  destruct Hup as [-> | ->]; cbn [handle]; rewrite after_discard;
    apply gesture_after; assumption.
Qed.

Lemma drag_commits_release_position_witness :
  let w := after (leftHandle_mousedown 100)
                 (Fixtures.committed Fixtures.ten_bars (mkRange 2 4)) in
  let w' := dispatch (map MouseMove [110; 30; 500] ++ [MouseUp 125]) w in
  well_formed w /\
  committed_barRange w' = mkRange 3 4 /\
  committed_pixelRange w' = mkRange 60 100 /\
  idle (self w') = true /\
  notifications (log w') = (7%nat, mkRange 3 4, true) :: notifications (log w).
Proof.
  intros w w'.
  assert (Hwf : well_formed w) by (unfold well_formed; vm_compute; lia).
  split; [exact Hwf |].
  apply (drag_commits_release_position 110 [30; 500] 125 (MouseUp 125) w Hwf);
    [reflexivity | reflexivity | left; reflexivity].
Defined.

Lemma highlighted_ranges_app l1 l2 :
  highlighted_ranges (l1 ++ l2) = highlighted_ranges l1 ++ highlighted_ranges l2.
Proof. apply omap_app. Qed.

(** X13. What a drag shows is what its release commits: with a handle
    armed, a pointer-move at [x] has the histogram highlight the bar range
    that pointer-up at the same [x] then commits (when that bar range can
    be displayed; otherwise the move raises before highlighting). *)
Theorem preview_is_what_release_commits (x : Z) w :
  well_formed w ->
  flags_ok (self w) = true ->
  _canDragLeft (self w) || _canDragRight (self w) = true ->
  let br := pixelRangeToBarRange (_histogram (self w))
              (dragged (self w) (_canDragLeft (self w)) (_canDragRight (self w)) x
                       (committed_pixelRange w)) in
  (displayable (bars (_histogram (self w))) br = true ->
   highlighted_ranges (log (after (mousemove x) w)) = br :: highlighted_ranges (log w)) /\
  (displayable (bars (_histogram (self w))) br = false ->
   outcome (mousemove x) w = TypeError /\ log (after (mousemove x) w) = log w) /\
  committed_barRange (dispatch [MouseMove x; MouseUp x] w) = br.
Proof.
  intros Hwf Hflags Harmed. cbn zeta.
  destruct (mousemove_after x w Hwf Harmed) as (_ & _ & Hlog).
  split; [| split].
  - intros Hd. rewrite Hlog. apply label_entries_is_Some in Hd.
    destruct Hd as [[first last] ->]. rewrite highlighted_ranges_app. reflexivity.
  - intros Hd. rewrite Hlog. apply label_entries_None in Hd.
    split; [| rewrite Hd; reflexivity].
    unfold outcome. rewrite mousemove_run by assumption. cbn zeta.
    rewrite updateUI_run. cbn [heap self].
    rewrite lookup_total_snoc.
    destruct (start_dragging_fields (self w)) as (Hh & _).
    rewrite Hh, Hd. reflexivity.
  - change (dispatch [MouseMove x; MouseUp x] w)
      with (after (discard (endDragging x)) (dispatch (map MouseMove [x]) w)).
    rewrite after_discard. apply gesture_after; assumption.
Qed.

Lemma preview_is_what_release_commits_witness :
  let w := after (rightHandle_mousedown 100)
                 (Fixtures.committed Fixtures.ten_bars (mkRange 2 4)) in
  well_formed w /\
  highlighted_ranges (log (after (mousemove 150) w)) =
    [mkRange 2 7; mkRange 2 4] /\
  committed_barRange (dispatch [MouseMove 150; MouseUp 150] w) = mkRange 2 7.
Proof.
  intros w.
  assert (Hwf : well_formed w) by (unfold well_formed; vm_compute; lia).
  split; [exact Hwf |].
  destruct (preview_is_what_release_commits 150 w Hwf eq_refl eq_refl)
    as (Hshow & _ & Hcommit).
  split; [apply Hshow; reflexivity | exact Hcommit].
Defined.

Lemma idle_flags f :
  idle f = true ->
  _canDragLeft f = false /\ _draggingLeft f = false /\
  _canDragRight f = false /\ _draggingRight f = false.
Proof.
  unfold idle.
  destruct (_canDragLeft f), (_draggingLeft f), (_canDragRight f), (_draggingRight f);
    cbn; intros; repeat split; congruence.
Qed.

(** X14. Only the end of a drag disarms a handle. From a filter with no
    handle armed, pointer-down on the left handle and pointer-up without a
    move in between commit nothing and leave the left handle armed; the
    next pointer-move then drags the handle although no button is held,
    and the next pointer-up at [x3] commits the range for a drag from the
    old anchor [x0] to [x3]. *)
Theorem release_without_move_leaves_handle_armed (x0 x1 x2 x3 : Z) w :
  well_formed w ->
  idle (self w) = true ->
  let w1 := dispatch [LeftHandleDown x0; MouseUp x1] w in
  let w2 := dispatch [MouseMove x2] w1 in
  let w3 := dispatch [MouseUp x3] w2 in
  (_canDragLeft (self w1) = true /\ committed_barRange w1 = committed_barRange w) /\
  (_draggingLeft (self w2) = true /\ committed_barRange w2 = committed_barRange w) /\
  committed_barRange w3 =
    pixelRangeToBarRange (_histogram (self w))
      (calculateFrom (committed_pixelRange w) (x3 - x0)
                     (barWidth (_histogram (self w))) (totalWidth (_histogram (self w)))) /\
  idle (self w3) = true.
Proof.
  intros Hwf Hidle. pose proof Hwf as (Hp & Hb & Hm).
  destruct (idle_flags _ Hidle) as (Hcl & Hdl & Hcr & Hdr).
  cbn zeta. cbn [dispatch fold_left handle].
  rewrite !after_discard.
  set (wd := after (leftHandle_mousedown x0) w).
  assert (Hwd : wd = mkWorld (heap w)
                  (with_draggingLeftX x0
                     (with_draggingLeft false (with_canDragLeft true (self w))))
                  (PreventDefault :: log w)) by reflexivity.
  assert (Hup : after (endDragging x1) wd = wd).
  { unfold after. rewrite endDragging_idle; [reflexivity |].
    rewrite Hwd. cbn. exact Hdr. }
  rewrite Hup.
  assert (Hwfd : well_formed wd) by (rewrite Hwd; exact Hwf).
  assert (Hflags : flags_ok (self wd) = true)
    by (rewrite Hwd; unfold flags_ok; cbn; rewrite Hdr; reflexivity).
  assert (Harmed : _canDragLeft (self wd) || _canDragRight (self wd) = true)
    by (rewrite Hwd; reflexivity).
  split; [split; rewrite Hwd; reflexivity |].
  split.
  - destruct (moves_after [x2] wd Hwfd Harmed) as (_ & Hself & _).
    cbn [map dispatch fold_left handle] in Hself.
    destruct (mousemove_same_commit x2 wd Hwfd) as (_ & _ & _ & _ & Hbr).
    split; [| rewrite Hbr, Hwd; reflexivity].
    rewrite Hself.
    destruct (start_dragging_flags (self wd) Hflags) as (Hdl' & _).
    rewrite Hdl', Hwd. reflexivity.
  - destruct (gesture_after x2 [] x3 wd Hwfd Hflags Harmed) as (Hbr & _ & Hidle3 & _).
    cbn [map dispatch fold_left handle] in Hbr, Hidle3.
    split; [| exact Hidle3].
    rewrite Hbr, Hwd. unfold dragged, committed_pixelRange.
    cbn [self heap _canDragLeft _canDragRight _histogram _draggingLeftX _pixelRange
         with_draggingLeftX with_draggingLeft with_canDragLeft].
    rewrite Hcr. destruct (heap w !!! _pixelRange (self w)). reflexivity.
Qed.

Lemma release_without_move_leaves_handle_armed_witness :
  let w := Fixtures.committed Fixtures.ten_bars (mkRange 2 4) in
  let w1 := dispatch [LeftHandleDown 100; MouseUp 100] w in
  let w3 := dispatch [MouseUp 140] (dispatch [MouseMove 140] w1) in
  well_formed w /\
  idle (self w) = true /\
  _canDragLeft (self w1) = true /\
  committed_barRange w3 = mkRange 4 4.
Proof.
  intros w w1 w3.
  assert (Hwf : well_formed w) by (unfold well_formed; vm_compute; lia).
  assert (Hidle : idle (self w) = true) by (vm_compute; reflexivity).
  split; [exact Hwf | split; [exact Hidle |]].
  destruct (release_without_move_leaves_handle_armed 100 100 140 140 w Hwf Hidle)
    as ((Harmed & _) & _ & Hcommit & _).
  split; [exact Harmed |].
  unfold w3, w1. rewrite Hcommit. vm_compute. reflexivity.
Defined.

(** X15. Writing and reading the two range properties. After a write to
    [barRange], reading [barRange] gives the very object that was written,
    and [pixelRange] holds its conversion; both are stored before the UI is
    refreshed, so also when the refresh raises. After a write to
    [pixelRange], [barRange] holds the conversion of the written range and
    [pixelRange] the conversion back of that bar range, in a new object:
    the object written is not the one read. *)
Theorem range_properties_write_then_read (v : Range) w :
  well_formed w ->
  (let w' := after (perform (WriteBarRange v)) w in
   outcome get_barRange w' = Ok (length (heap w)) /\
   heap w' !!! length (heap w) = v /\
   committed_barRange w' = v /\
   committed_pixelRange w' = barRangeToPixelRange (_histogram (self w)) v) /\
  (let w' := after (perform (WritePixelRange v)) w in
   let br := pixelRangeToBarRange (_histogram (self w)) v in
   heap w' !!! length (heap w) = v /\
   outcome get_pixelRange w' = Ok (S (S (length (heap w)))) /\
   committed_barRange w' = br /\
   committed_pixelRange w' = barRangeToPixelRange (_histogram (self w)) br).
Proof.
  intros (Hp & Hb & Hm). cbn zeta. cbn [perform]. split.
  - change (after (call_with v set_barRange) w)
      with (after (setFilterBarRange (length (heap w)) false)
                  (mkWorld (heap w ++ [v]) (self w) (log w))).
    destruct (commit_new_after (heap w) (self w) (log w) v false Hm) as (Hheap & Hself & _).
    destruct (commit_new_committed (heap w) (self w) (log w) v false Hm)
      as (Hbr & Hpr & _).
    split; [unfold outcome, get_barRange, bind, this, ret; cbn [fst]; rewrite Hself;
            reflexivity |].
    split; [| split; assumption].
    rewrite Hheap, (lookup_total_app_l (heap w ++ [v]))
      by (rewrite length_app; cbn [length]; lia).
    apply lookup_total_snoc.
  - change (after (call_with v set_pixelRange) w)
      with (after (setFilterPixelRange (length (heap w)) false)
                  (mkWorld (heap w ++ [v]) (self w) (log w))).
    destruct (commit_new_pixel_after (heap w) (self w) (log w) v false Hm)
      as (Hheap & Hself & _).
    destruct (commit_new_pixel_committed (heap w) (self w) (log w) v false Hm)
      as (Hbr & Hpr & _).
    split; [| split; [| split; assumption]].
    + rewrite Hheap.
      rewrite (lookup_total_app_l ((heap w ++ [v]) ++ _))
        by (rewrite !length_app; cbn [length]; lia).
      rewrite (lookup_total_app_l (heap w ++ [v]))
        by (rewrite length_app; cbn [length]; lia).
      apply lookup_total_snoc.
    + unfold outcome, get_pixelRange, bind, this, ret; cbn [fst]. rewrite Hself.
      cbn [_pixelRange with_barRange with_pixelRange]. rewrite !length_app. cbn [length].
      f_equal. lia.
Qed.

Lemma range_properties_write_then_read_witness :
  let w := Fixtures.committed Fixtures.ten_bars (mkRange 2 4) in
  let w' := after (perform (WritePixelRange (mkRange 47 93))) w in
  well_formed w /\
  committed_barRange w' = mkRange 2 4 /\
  committed_pixelRange w' = mkRange 40 100.
Proof.
  intros w w'.
  assert (Hwf : well_formed w) by (unfold well_formed; vm_compute; lia).
  split; [exact Hwf |].
  destruct (range_properties_write_then_read (mkRange 47 93) w Hwf)
    as (_ & _ & _ & Hbr & Hpr).
  split; [exact Hbr | exact Hpr].
Defined.

(** X16. Committing the same bar range twice in a row gives the same
    result twice: the second call of [setFilterBarRange] leaves the same
    committed bar range and pixel range as the first and makes the same
    calls again (the same refresh of the UI and the same call of the
    callback). *)
Theorem commit_twice_same (v : Range) (u : bool) w :
  well_formed w ->
  let w1 := after (perform (CallSetFilterBarRange v u)) w in
  let w2 := after (perform (CallSetFilterBarRange v u)) w1 in
  let effects := commit_effects (self w) (maxBarRange w) v
                   (barRangeToPixelRange (_histogram (self w)) v) u in
  log w1 = effects ++ log w /\
  log w2 = effects ++ log w1 /\
  committed_barRange w2 = committed_barRange w1 /\
  committed_pixelRange w2 = committed_pixelRange w1.
Proof.
  intros Hwf. cbn zeta. pose proof Hwf as (Hp & Hb & Hm).
  destruct (perform_step (CallSetFilterBarRange v u) w Hwf) as [Hstep _].
  pose proof (step_to_maxBarRange _ _ Hwf Hstep) as Hmax.
  destruct Hstep as (_ & (Hh & Hs & Hmx) & Hwf1).
  set (w1 := after (perform (CallSetFilterBarRange v u)) w) in *.
  assert (Hcall : forall w0,
    after (perform (CallSetFilterBarRange v u)) w0 =
    after (setFilterBarRange (length (heap w0)) u)
          (mkWorld (heap w0 ++ [v]) (self w0) (log w0))) by reflexivity.
  destruct (commit_new_after (heap w) (self w) (log w) v u Hm) as (_ & _ & Hlog).
  destruct (commit_new_committed (heap w) (self w) (log w) v u Hm)
    as (Hbr & Hpr & Hcb & _).
  rewrite <- Hcall in Hlog, Hbr, Hpr, Hcb. fold w1 in Hlog, Hbr, Hpr, Hcb.
  pose proof Hwf1 as (_ & _ & Hm1).
  destruct (commit_new_after (heap w1) (self w1) (log w1) v u Hm1) as (_ & _ & Hlog2).
  destruct (commit_new_committed (heap w1) (self w1) (log w1) v u Hm1)
    as (Hbr2 & Hpr2 & _).
  rewrite <- Hcall in Hlog2, Hbr2, Hpr2.
  split; [exact Hlog |].
  split; [| split; [rewrite Hbr2, Hbr; reflexivity | rewrite Hpr2, Hpr, Hh; reflexivity]].
  rewrite Hlog2. f_equal. unfold commit_effects.
  fold (maxBarRange w1). rewrite Hmax, Hh, Hs, Hcb. reflexivity.
Qed.

Lemma commit_twice_same_witness :
  let w := Fixtures.committed Fixtures.ten_bars (mkRange 2 4) in
  let w1 := after (perform (CallSetFilterBarRange (mkRange 5 9) true)) w in
  let w2 := after (perform (CallSetFilterBarRange (mkRange 5 9) true)) w1 in
  well_formed w /\
  committed_pixelRange w2 = committed_pixelRange w1 /\
  committed_barRange w2 = committed_barRange w1.
Proof.
  intros w w1 w2.
  assert (Hwf : well_formed w) by (unfold well_formed; vm_compute; lia).
  split; [exact Hwf |].
  destruct (commit_twice_same (mkRange 5 9) true w Hwf) as (_ & _ & Hbr & Hpr).
  split; [exact Hpr | exact Hbr].
Defined.

(** X17. The page controls tell what a click will do. After a commit of a
    bar range that can be displayed, the refresh has disabled "page left"
    exactly when [from] is the first bar and "page right" exactly when [to]
    is the last bar, and hidden the range label exactly when the range is
    the widest one; for a range inside the widest range, a page control is
    disabled exactly when a click on it commits nothing. *)
Theorem page_controls_match_guards (v : Range) (u : bool) w :
  well_formed w ->
  displayable (bars (_histogram (self w))) v = true ->
  let w' := after (perform (CallSetFilterBarRange v u)) w in
  let mx := maxBarRange w in
  page_left_disabled (log w') = Some (from v =? from mx) /\
  page_right_disabled (log w') = Some (to v =? to mx) /\
  range_label_hidden (log w') = Some ((from v =? from mx) && (to v =? to mx)) /\
  (within mx v ->
   page_left_disabled (log w') = Some (negb (commits PageLeftClick w')) /\
   page_right_disabled (log w') = Some (negb (commits PageRightClick w'))).
Proof.
  intros Hwf Hd. cbn zeta. pose proof Hwf as (Hp & Hb & Hm).
  destruct (perform_step (CallSetFilterBarRange v u) w Hwf) as [Hstep _].
  pose proof (step_to_maxBarRange _ _ Hwf Hstep) as Hmax.
  assert (Hcall :
    after (perform (CallSetFilterBarRange v u)) w =
    after (setFilterBarRange (length (heap w)) u)
          (mkWorld (heap w ++ [v]) (self w) (log w))) by reflexivity.
  destruct (commit_new_after (heap w) (self w) (log w) v u Hm) as (_ & _ & Hlog).
  destruct (commit_new_committed (heap w) (self w) (log w) v u Hm) as (Hbr & _).
  rewrite <- Hcall in Hlog, Hbr.
  set (w' := after (perform (CallSetFilterBarRange v u)) w) in *.
  fold (maxBarRange w) in Hlog.
  assert (Hshown :
    page_left_disabled (log w') = Some (from v =? from (maxBarRange w)) /\
    page_right_disabled (log w') = Some (to v =? to (maxBarRange w)) /\
    range_label_hidden (log w') =
      Some ((from v =? from (maxBarRange w)) && (to v =? to (maxBarRange w)))).
  { rewrite Hlog. unfold commit_effects.
    apply label_entries_is_Some in Hd. destruct Hd as [[first last] ->].
    destruct (_onFilterChanged (self w)); repeat split; reflexivity. }
  destruct Hshown as (Hleft & Hright & Hhidden).
  split; [exact Hleft | split; [exact Hright | split; [exact Hhidden |]]].
  intros (Hlo & Hmid & Hhi). rewrite Hleft, Hright.
  unfold commits. rewrite Hbr, Hmax.
  split; f_equal.
  - destruct (Z.eqb_spec (from v) (from (maxBarRange w))),
             (Z.gtb_spec (from v) (from (maxBarRange w))); try reflexivity; lia.
  - destruct (Z.eqb_spec (to v) (to (maxBarRange w))),
             (Z.ltb_spec (to v) (to (maxBarRange w))); try reflexivity; lia.
Qed.

Lemma page_controls_match_guards_witness :
  let w := Fixtures.committed Fixtures.ten_bars (mkRange 2 4) in
  let w' := after (perform (CallSetFilterBarRange (mkRange 0 3) true)) w in
  well_formed w /\
  page_left_disabled (log w') = Some true /\
  page_right_disabled (log w') = Some false /\
  range_label_hidden (log w') = Some false.
Proof.
  intros w w'.
  assert (Hwf : well_formed w) by (unfold well_formed; vm_compute; lia).
  split; [exact Hwf |].
  destruct (page_controls_match_guards (mkRange 0 3) true w Hwf eq_refl)
    as (Hleft & Hright & Hhidden & _).
  split; [exact Hleft | split; [exact Hright | exact Hhidden]].
Defined.

(** Only a write to [onFilterChanged] changes the registered callback. *)
Lemma perform_handler a w :
  well_formed w ->
  _onFilterChanged (self (after (perform a) w)) =
  match a with
  | WriteOnFilterChanged v => v
  | _ => _onFilterChanged (self w)
  end.
Proof.
  intros Hwf. pose proof Hwf as (Hp & Hb & Hm).
  assert (Hup : forall x,
    _onFilterChanged (self (after (endDragging x) w)) = _onFilterChanged (self w)).
  { intros x. destruct (_draggingLeft (self w) || _draggingRight (self w)) eqn:Hdrag.
    - destruct (endDragging_committed x w Hwf Hdrag) as (_ & _ & Hself & _).
      rewrite Hself. cbn [_onFilterChanged with_barRange with_pixelRange].
      apply stop_dragging_fields.
    - unfold after. rewrite endDragging_idle by assumption. reflexivity. }
  destruct a as [[x | x | x | x | x | |] | v | v | v | r u | r u]; cbn [perform handle].
  - reflexivity.
  - reflexivity.
  - destruct (_canDragLeft (self w) || _canDragRight (self w)) eqn:Harmed.
    + destruct (mousemove_after x w Hwf Harmed) as (_ & Hself & _).
      rewrite Hself. apply start_dragging_more.
    + unfold after. rewrite mousemove_idle by assumption. reflexivity.
  - rewrite after_discard. apply Hup.
  - rewrite after_discard. apply Hup.
  - unfold after. rewrite pageLeft_click_run.
    destruct (_ >? _); [| reflexivity].
    apply (commit_new_committed (heap w) (self w) (log w) _ true Hm).
  - unfold after. rewrite pageRight_click_run.
    destruct (_ <? _); [| reflexivity].
    apply (commit_new_committed (heap w) (self w) (log w) _ true Hm).
  - apply (commit_new_committed (heap w) (self w) (log w) v false Hm).
  - apply (commit_new_pixel_committed (heap w) (self w) (log w) v false Hm).
  - destruct v; reflexivity.
  - apply (commit_new_committed (heap w) (self w) (log w) r u Hm).
  - apply (commit_new_pixel_committed (heap w) (self w) (log w) r u Hm).
Qed.

Lemma play_notifications later : forall w,
  well_formed w ->
  Forall (fun a => forall v, a <> WriteOnFilterChanged v) later ->
  _onFilterChanged (self (play later w)) = _onFilterChanged (self w) /\
  exists ns,
    notifications (log (play later w)) = ns ++ notifications (log w) /\
    Forall (fun n => _onFilterChanged (self w) = Some n.1.1) ns /\
    (length ns <= length later)%nat.
Proof.
  induction later as [| a later IH]; intros w Hwf Hlater; cbn [play fold_left].
  - split; [reflexivity |]. exists []. repeat split; [constructor | cbn; lia].
  - apply Forall_cons in Hlater. destruct Hlater as [Ha Hlater].
    destruct (perform_step a w Hwf) as [(_ & _ & Hwf1) _].
    pose proof (perform_handler a w Hwf) as Hcb.
    assert (Hcb' : _onFilterChanged (self (after (perform a) w)) =
                   _onFilterChanged (self w)).
    { rewrite Hcb. destruct a as [| | | v' | |]; try reflexivity.
      exfalso. apply (Ha v'). reflexivity. }
    destruct (perform_notifications a w Hwf) as (ns1 & Hn1 & Hshape).
    destruct (IH _ Hwf1 Hlater) as (Hcb2 & ns2 & Hn2 & Hall2 & Hlen2).
    fold (play later (after (perform a) w)).
    split; [rewrite Hcb2; exact Hcb' |].
    exists (ns2 ++ ns1). rewrite Hn2, Hn1, app_assoc.
    split; [reflexivity |]. split.
    + apply Forall_app. split; [rewrite <- Hcb'; exact Hall2 |].
      destruct Hshape as [-> | (handler & u & Hsome & ->)]; [constructor |].
      constructor; [exact Hsome | constructor].
    + rewrite length_app. cbn [length].
      destruct Hshape as [-> | (handler & u & _ & ->)]; cbn [length]; lia.
Qed.

(** X18. The callback is a single slot. After a write of [value] to
    [onFilterChanged], in any state reached from the constructor, and for
    as long as the property is not written again, every call of the callback
    calls [value]: none at all if [value] is not a function, and at most one
    for each action. *)
Theorem callback_is_single_slot h spec before value later :
  Forall (fun a => forall v, a <> WriteOnFilterChanged v) later ->
  let w := after (perform (WriteOnFilterChanged value)) (play before (new h spec)) in
  let w' := play later w in
  _onFilterChanged (self w') = value /\
  exists ns,
    notifications (log w') = ns ++ notifications (log w) /\
    Forall (fun n => value = Some n.1.1) ns /\
    (length ns <= length later)%nat.
Proof.
  intros Hlater. cbn zeta.
  destruct (play_step before (new h spec) (new_well_formed h spec)) as [(_ & _ & Hwf0) _].
  destruct (perform_step (WriteOnFilterChanged value) _ Hwf0) as [(_ & _ & Hwf) _].
  pose proof (perform_handler (WriteOnFilterChanged value) _ Hwf0) as Hcb.
  cbn iota in Hcb.
  destruct (play_notifications later _ Hwf Hlater) as (Hcb' & ns & Hn & Hall & Hlen).
  rewrite Hcb in Hcb', Hall.
  split; [exact Hcb' |].
  exists ns. repeat split; assumption.
Qed.

Lemma callback_is_single_slot_witness :
  let later := [UI PageRightClick; WritePixelRange (mkRange 0 60)] in
  let w := after (perform (WriteOnFilterChanged None))
                 (play [WriteOnFilterChanged (Some 3%nat); WriteBarRange (mkRange 2 4)]
                       (new Fixtures.ten_bars None)) in
  Forall (fun a => forall v, a <> WriteOnFilterChanged v) later /\
  notifications (log (play later w)) = notifications (log w).
Proof.
  intros later w.
  assert (Hlater : Forall (fun a => forall v, a <> WriteOnFilterChanged v) later)
    by (repeat constructor; discriminate).
  split; [exact Hlater |].
  destruct (callback_is_single_slot Fixtures.ten_bars None
              [WriteOnFilterChanged (Some 3%nat); WriteBarRange (mkRange 2 4)]
              None later Hlater) as (_ & ns & Hn & Hall & _).
  fold w in Hn. rewrite Hn.
  destruct ns as [| n ns]; [reflexivity |].
  apply Forall_cons in Hall. destruct Hall as [Hnone _]. discriminate Hnone.
Defined.

Lemma dragged_in_range_witness :
  let f := self (after (leftHandle_mousedown 100)
                       (after (rightHandle_mousedown 130)
                              (Fixtures.committed Fixtures.ten_bars (mkRange 2 4)))) in
  let r' := dragged f true true 175 (mkRange 40 100) in
  pixel_range_ok (totalWidth (_histogram f)) (mkRange 40 100) /\
  pixel_range_ok (totalWidth (_histogram f)) r' /\
  barWidth (_histogram f) <= to r' - from r'.
Proof.
  intros f r'.
  assert (Hok : pixel_range_ok (totalWidth (_histogram f)) (mkRange 40 100))
    by (unfold pixel_range_ok; vm_compute; repeat split; discriminate).
  assert (Hw : 0 <= barWidth (_histogram f) <= totalWidth (_histogram f))
    by (vm_compute; split; discriminate).
  split; [exact Hok |].
  apply (dragged_in_range f true true 175 (mkRange 40 100) Hok Hw eq_refl).
Defined.

End SessionProperties.

(** ** The drag arithmetic in closed form *)

Lemma drag_clamp_form r offset barWidth totalWidth :
  0 <= from r -> to r <= totalWidth ->
  0 <= barWidth <= totalWidth ->
  let f := Z.min (Z.max 0 (from r + offset)) (totalWidth - barWidth) in
  let t := Z.max (Z.min totalWidth (to r + offset)) barWidth in
  calculateFrom r offset barWidth totalWidth =
    {| from := f; to := Z.max (to r) (f + barWidth) |} /\
  calculateTo r offset barWidth totalWidth =
    {| from := Z.min (from r) (t - barWidth); to := t |}.
Proof.
  intros Hfrom Hto Hw. cbn zeta.
  unfold calculateFrom, calculateTo, set_from, set_to; cbn [from to].
  split; range_cases; cbn [from to]; f_equal; lia.
Qed.

(** X20. A drag is a clamp. For a range with [0 <= from] and
    [to <= totalWidth] and a bar width with [0 <= barWidth <= totalWidth],
    [calculateFrom] puts [from] at the pointer position [from + offset]
    clamped to [[0, totalWidth - barWidth]] and moves [to] only as far as
    one bar needs, to [max to (from + barWidth)]; [calculateTo] puts [to]
    at [to + offset] clamped to [[barWidth, totalWidth]] and [from] at
    [min from (to - barWidth)]. *)
Theorem drag_is_a_clamp r offset barWidth totalWidth :
  0 <= from r -> to r <= totalWidth ->
  0 <= barWidth <= totalWidth ->
  let f := Z.min (Z.max 0 (from r + offset)) (totalWidth - barWidth) in
  let t := Z.max (Z.min totalWidth (to r + offset)) barWidth in
  calculateFrom r offset barWidth totalWidth =
    {| from := f; to := Z.max (to r) (f + barWidth) |} /\
  calculateTo r offset barWidth totalWidth =
    {| from := Z.min (from r) (t - barWidth); to := t |}.
Proof. apply drag_clamp_form. Qed.

Lemma drag_is_a_clamp_witness :
  0 <= from (mkRange 40 100) /\ to (mkRange 40 100) <= 200 /\
  calculateFrom (mkRange 40 100) 90 20 200 = mkRange 130 150 /\
  calculateTo (mkRange 40 100) (-500) 20 200 = mkRange 0 20.
Proof.
  assert (H1 : 0 <= from (mkRange 40 100)) by (simpl; lia).
  assert (H2 : to (mkRange 40 100) <= 200) by (simpl; lia).
  assert (H3 : 0 <= 20 <= 200) by lia.
  split; [exact H1 | split; [exact H2 |]].
  destruct (drag_is_a_clamp (mkRange 40 100) 90 20 200 H1 H2 H3) as [Hl _].
  destruct (drag_is_a_clamp (mkRange 40 100) (-500) 20 200 H1 H2 H3) as [_ Hr].
  split; [rewrite Hl | rewrite Hr]; reflexivity.
Defined.

(** X21. A drag without movement changes nothing, and a drag follows the
    pointer in order. For a pixel range with [0 <= from <= to <= totalWidth]
    that is at least one bar wide, [calculateFrom] and [calculateTo] with
    offset [0] return the range unchanged; and for any range inside the
    histogram, a larger offset never gives a smaller [from] or a smaller
    [to], for either function. *)
Theorem drag_is_monotone r offset1 offset2 barWidth totalWidth :
  pixel_range_ok totalWidth r ->
  0 <= barWidth <= totalWidth ->
  offset1 <= offset2 ->
  let l1 := calculateFrom r offset1 barWidth totalWidth in
  let l2 := calculateFrom r offset2 barWidth totalWidth in
  let t1 := calculateTo r offset1 barWidth totalWidth in
  let t2 := calculateTo r offset2 barWidth totalWidth in
  (from l1 <= from l2 /\ to l1 <= to l2) /\
  (from t1 <= from t2 /\ to t1 <= to t2) /\
  (barWidth <= to r - from r ->
   calculateFrom r 0 barWidth totalWidth = r /\
   calculateTo r 0 barWidth totalWidth = r).
Proof.
  intros (Hfrom & Hle & Hto) Hw Hoff. cbn zeta.
  assert (Hf : Z.min (Z.max 0 (from r + offset1)) (totalWidth - barWidth) <=
               Z.min (Z.max 0 (from r + offset2)) (totalWidth - barWidth)) by lia.
  assert (Ht : Z.max (Z.min totalWidth (to r + offset1)) barWidth <=
               Z.max (Z.min totalWidth (to r + offset2)) barWidth) by lia.
  assert (Hzero : barWidth <= to r - from r ->
                  Z.min (Z.max 0 (from r + 0)) (totalWidth - barWidth) = from r /\
                  Z.max (Z.min totalWidth (to r + 0)) barWidth = to r) by lia.
  destruct (drag_clamp_form r offset1 barWidth totalWidth Hfrom Hto Hw) as [-> ->].
  destruct (drag_clamp_form r offset2 barWidth totalWidth Hfrom Hto Hw) as [-> ->].
  destruct (drag_clamp_form r 0 barWidth totalWidth Hfrom Hto Hw) as [-> ->].
  cbn [from to].
  set (f1 := Z.min (Z.max 0 (from r + offset1)) _) in *.
  set (f2 := Z.min (Z.max 0 (from r + offset2)) _) in *.
  set (t1 := Z.max (Z.min totalWidth (to r + offset1)) _) in *.
  set (t2 := Z.max (Z.min totalWidth (to r + offset2)) _) in *.
  clearbody f1 f2 t1 t2.
  split; [split; lia | split; [split; lia |]].
  intros Hwide. destruct (Hzero Hwide) as [-> ->].
  clear Hzero. destruct r as [a b]. cbn [from to] in *.
  split; f_equal; lia.
Qed.

Lemma drag_is_monotone_witness :
  pixel_range_ok 200 (mkRange 40 100) /\
  from (calculateFrom (mkRange 40 100) 30 20 200) <=
    from (calculateFrom (mkRange 40 100) 170 20 200) /\
  calculateTo (mkRange 40 100) 0 20 200 = mkRange 40 100.
Proof.
  assert (Hok : pixel_range_ok 200 (mkRange 40 100))
    by (unfold pixel_range_ok; simpl; lia).
  assert (Hw : 0 <= 20 <= 200) by lia.
  assert (Hoff : 30 <= 170) by lia.
  destruct (drag_is_monotone (mkRange 40 100) 30 170 20 200 Hok Hw Hoff)
    as ((Hfrom & _) & _ & Hzero).
  split; [exact Hok | split; [exact Hfrom |]].
  apply Hzero. simpl. lia.
Defined.
